(** * A shallow embedding of the KuCoin candlestick relay ([server.js])

    The relay keeps one upstream WebSocket to the exchange, normalises the
    candles it receives, fans them out to the connected front-end sockets and
    answers history requests through the exchange's REST endpoint.

    The development has these layers:
    - [JS]: the ECMAScript built-ins the server calls ([parseInt],
      [parseFloat], property reads, [JSON.stringify], ...), over IEEE-754
      binary64 numbers (Rocq's primitive floats);
    - [Relay]: the server itself, one definition per function or event
      handler of [server.js], threading the process state explicitly.  The
      results of the calls that leave the process ([JSON.parse] of a frame,
      [axios.post], [axios.get], [new WebSocket]) are arguments of the
      handlers.  Console output and the static routes are not part of the
      model;
    - [Vocabulary] and [Samples]: the notions the statements are written
      with, and concrete states and messages;
    - [Upstream]: the ['open'] and ['error'] handlers of the upstream
      socket, the keep-alive interval, and the process as an event loop: the
      events the runtime and the ws library deliver, and what each one does;
    - [Client]: the message handler of the chart component;
    - [Invariant] and [Scenario]: what holds of every state the process
      reaches, and one run of it;
    - [Properties] and [Extras]: the theorems about the relay. *)

From Stdlib Require Import ZArith List String Ascii Bool Lia Floats DecimalString.
From stdpp Require Import base option list gmap.
Import ListNotations.

Local Open Scope string_scope.
Local Open Scope list_scope.
Local Open Scope Z_scope.

(* ===================================================================== *)
(** * ECMAScript values and built-ins                                     *)
(* ===================================================================== *)

Module JS.

(** Values that [JSON.parse] can produce, plus [undefined].  An object lists
    its own properties; a key bound twice reads as its last binding, as in
    [JSON.parse].  A string is a sequence of code units below 256. *)
#[warnings="-register-all"]
Inductive JsValue : Type :=
| JsUndefined
| JsNull
| JsBool (b : bool)
| JsNumber (x : float)
| JsString (s : string)
| JsArray (elems : list JsValue)
| JsObject (props : list (string * JsValue)).

(** Exceptions: a [TypeError] raised by the language itself, or an [Error]
    raised by a library (axios rejecting a request, ws refusing a send). *)
Inductive Exn : Type :=
| TypeError (msg : string)
| Error (msg : string).

(** The completion of an evaluation: a value, or a thrown exception. *)
Inductive Completion (A : Type) : Type :=
| Normal (a : A)
| Throw (e : Exn).
Arguments Normal {A} a.
Arguments Throw {A} e.

#[export] Instance Completion_ret : MRet Completion := @Normal.
#[export] Instance Completion_bind : MBind Completion :=
  fun A B f c => match c with Normal a => f a | Throw e => Throw e end.

(** [Array.prototype.map] with a callback that may throw: the first
    exception aborts the whole call. *)
Fixpoint mapC {A B : Type} (f : A -> Completion B) (l : list A)
  : Completion (list B) :=
  match l with
  | [] => Normal []
  | a :: l' => b ← f a; bs ← mapC f l'; Normal (b :: bs)
  end.

(** ** Numbers *)

Definition Z_to_Number (z : Z) : float :=
  SF2Prim (binary_normalize 53 1024 z 0 false).

Definition is_finite (x : float) : bool :=
  negb (PrimFloat.is_nan x) && negb (PrimFloat.is_infinity x).

(** A number is integer-valued when it is finite and has no fractional
    part ([Number.isInteger]). *)
Definition Number_isInteger (x : float) : bool :=
  match Prim2SF x with
  | S754_zero _ => true
  | S754_finite _ m e => (0 <=? e) || (Z.pos m mod 2 ^ (- e) =? 0)
  | _ => false
  end.

(** ** Property reads *)

Fixpoint lookup_last (k : string) (ps : list (string * JsValue)) : option JsValue :=
  match ps with
  | [] => None
  | (k', v) :: ps' =>
      match lookup_last k ps' with
      | Some w => Some w
      | None => if String.eqb k k' then Some v else None
      end
  end.

(** [v.k] for a name [k] that no built-in prototype defines (every name the
    server reads is such a name). *)
Definition get_prop (v : JsValue) (k : string) : Completion JsValue :=
  match v with
  | JsUndefined => Throw (TypeError ("Cannot read properties of undefined (reading '" ++ k ++ "')")%string)
  | JsNull => Throw (TypeError ("Cannot read properties of null (reading '" ++ k ++ "')")%string)
  | JsObject ps => Normal (default JsUndefined (lookup_last k ps))
  | _ => Normal JsUndefined
  end.

Definition index_key (i : nat) : string :=
  NilEmpty.string_of_uint (Nat.to_uint i).

Fixpoint string_at (s : string) (i : nat) : option ascii :=
  match s, i with
  | EmptyString, _ => None
  | String c _, O => Some c
  | String _ s', S i' => string_at s' i'
  end.

(** [v[i]] for a literal index [i]. *)
Definition get_index (v : JsValue) (i : nat) : Completion JsValue :=
  match v with
  | JsUndefined => Throw (TypeError ("Cannot read properties of undefined (reading '" ++ index_key i ++ "')")%string)
  | JsNull => Throw (TypeError ("Cannot read properties of null (reading '" ++ index_key i ++ "')")%string)
  | JsArray l => Normal (nth i l JsUndefined)
  | JsString s =>
      Normal (match string_at s i with
              | Some c => JsString (String c EmptyString)
              | None => JsUndefined
              end)
  | JsObject ps => Normal (default JsUndefined (lookup_last (index_key i) ps))
  | _ => Normal JsUndefined
  end.

(** [ToBoolean]. *)
Definition truthy (v : JsValue) : bool :=
  match v with
  | JsUndefined | JsNull => false
  | JsBool b => b
  | JsNumber x => negb (PrimFloat.is_nan x) && negb (PrimFloat.eqb x 0%float)
  | JsString s => negb (String.eqb s "")
  | JsArray _ | JsObject _ => true
  end.

(** [v === s] for a string literal [s]. *)
Definition strict_eq_string (v : JsValue) (s : string) : bool :=
  match v with
  | JsString t => String.eqb t s
  | _ => false
  end.

Fixpoint is_prefix (p s : string) : bool :=
  match p, s with
  | EmptyString, _ => true
  | String a p', String b s' => Ascii.eqb a b && is_prefix p' s'
  | String _ _, EmptyString => false
  end.

(** [String.prototype.includes]. *)
Fixpoint String_includes (s needle : string) : bool :=
  is_prefix needle s ||
  match s with
  | EmptyString => false
  | String _ s' => String_includes s' needle
  end.

(** [v.includes(needle)] for a truthy [v] and a string literal [needle]:
    strings search for a substring, arrays for an element; every other value
    has no callable [includes] and the call throws. *)
Definition call_includes (v : JsValue) (needle : string) : Completion bool :=
  match v with
  | JsString s => Normal (String_includes s needle)
  | JsArray l => Normal (existsb (fun e => strict_eq_string e needle) l)
  | JsUndefined => Throw (TypeError "Cannot read properties of undefined (reading 'includes')")
  | JsNull => Throw (TypeError "Cannot read properties of null (reading 'includes')")
  | _ => Throw (TypeError "includes is not a function")
  end.

Definition Array_isArray (v : JsValue) : bool :=
  match v with JsArray _ => true | _ => false end.

(** ** [Number::toString]

    The decimal digits of a finite non-zero number of magnitude [m * 2^e]:
    the integers [s] and [p] with the fewest digits in [s] such that
    [s * 10^p] rounds to the number, [s * 10^p] being the closest to it among
    those (the even [s] on a tie). *)

Definition ceil_div (a b : Z) : Z := - ((- a) / b).

(** The digits at the decimal position [p], when a multiple of [10^p] reads
    back as the number.  The rounding interval is measured in units of
    [2^(e-2)]: the number is [4m], its upper neighbour's midpoint [4m+2], its
    lower neighbour's midpoint [4m-2], or [4m-1] just above a power of two. *)
Definition digits_at (m e p : Z) : option Z :=
  let e2 := e - 2 in
  let num X := X * 2 ^ Z.max e2 0 * 10 ^ Z.max (- p) 0 in
  let den := 2 ^ Z.max (- e2) 0 * 10 ^ Z.max p 0 in
  let lo := num (if (m =? 2 ^ 52) && (-1074 <? e) then 4 * m - 1 else 4 * m - 2) in
  let hi := num (4 * m + 2) in
  let v := num (4 * m) in
  let smin := Z.max 1 (if Z.even m then ceil_div lo den else lo / den + 1) in
  let smax := if Z.even m then hi / den else ceil_div hi den - 1 in
  if smin <=? smax then
    let q := v / den in
    let r := v mod den in
    let c := if 2 * r <? den then q
             else if den <? 2 * r then q + 1
             else if Z.even q then q else q + 1 in
    Some (Z.min smax (Z.max smin c))
  else None.

Fixpoint shortest_from (fuel : nat) (m e p : Z) : Z * Z :=
  match fuel with
  | O => (m * 2 ^ Z.max e 0 * 5 ^ Z.max (- e) 0, Z.min e 0)
  | S fuel' =>
      match digits_at m e p with
      | Some s => (s, p)
      | None => shortest_from fuel' m e (p - 1)
      end
  end.

(** The search starts above the decimal exponent of the number and ends, at
    the latest, at the position [min e 0] where [m * 2^e] is itself a
    multiple of [10^p]. *)
Definition shortest_digits (m e : Z) : Z * Z :=
  let start := (Z.log2 m + 1 + e) * 30103 / 100000 + 2 in
  shortest_from (Z.to_nat (start - Z.min e 0)) m e start.

Definition decimal_length (s : Z) : Z :=
  Z.of_nat (Decimal.nb_digits (Pos.to_uint (Z.to_pos s))).

(** The integer that [parseInt] reads at the head of [Number::toString]:
    the integer part in plain notation (decimal exponent [n] with
    [-6 < n <= 21]), the leading digit in exponent notation. *)
Definition integer_prefix (m e : Z) : Z :=
  let '(s, p) := shortest_digits m e in
  let k := decimal_length s in
  let n := k + p in
  if (-6 <? n) && (n <=? 21)
  then (if 0 <=? p then s * 10 ^ p else s / 10 ^ (- p))
  else s / 10 ^ (k - 1).

Definition signed_integer (neg : bool) (z : Z) : float :=
  if z =? 0 then (if neg then (-0)%float else 0%float)
  else Z_to_Number (if neg then - z else z).

(** ** Reading numbers from strings *)

Definition code (c : ascii) : Z := Z.of_N (N_of_ascii c).

(** White space and line terminators among the Latin-1 code units. *)
Definition is_white_space (c : ascii) : bool :=
  let n := code c in
  ((9 <=? n) && (n <=? 13)) || (n =? 32) || (n =? 160).

Fixpoint skip_white_space (s : string) : string :=
  match s with
  | String c s' => if is_white_space c then skip_white_space s' else s
  | EmptyString => s
  end.

Definition digit_value (radix : Z) (c : ascii) : option Z :=
  let n := code c in
  let d := if (48 <=? n) && (n <=? 57) then n - 48
           else if (97 <=? n) && (n <=? 122) then n - 87
           else if (65 <=? n) && (n <=? 90) then n - 55
           else radix in
  if d <? radix then Some d else None.

(** The longest run of digits at the head of [s]: its value on top of
    [acc], the number of digits read on top of [cnt], and the rest. *)
Fixpoint read_digits (radix : Z) (s : string) (acc cnt : Z) : Z * Z * string :=
  match s with
  | String c s' =>
      match digit_value radix c with
      | Some d => read_digits radix s' (acc * radix + d) (cnt + 1)
      | None => (acc, cnt, s)
      end
  | EmptyString => (acc, cnt, s)
  end.

Definition read_sign (s : string) : bool * string :=
  match s with
  | String "-" s' => (true, s')
  | String "+" s' => (false, s')
  | _ => (false, s)
  end.

(** [parseInt(s)] for a string, no radix given. *)
Definition parseInt_String (s : string) : float :=
  let '(neg, s1) := read_sign (skip_white_space s) in
  let '(radix, s2) :=
    match s1 with
    | String "0" (String "x" r) | String "0" (String "X" r) => (16, r)
    | _ => (10, s1)
    end in
  let '(z, cnt, _) := read_digits radix s2 0 0 in
  if cnt =? 0 then nan else signed_integer neg z.

(** The number closest to [m * 10^e10], [m >= 0]. *)
Definition decimal_to_Number (neg : bool) (m e10 : Z) : float :=
  if m =? 0 then (if neg then (-0)%float else 0%float)
  else if 400 <? e10 then (if neg then neg_infinity else infinity)
  else if Z.log2 m + 1 + 3 * e10 <? -1076 then (if neg then (-0)%float else 0%float)
  else if 0 <=? e10
  then SF2Prim (binary_normalize 53 1024 ((if neg then - m else m) * 10 ^ e10) 0 false)
  else SF2Prim (SFdiv 53 1024 (S754_finite neg (Z.to_pos m) 0)
                               (S754_finite false (Z.to_pos (10 ^ (- e10))) 0)).

(** [parseFloat(s)] for a string: the longest decimal literal at its head. *)
Definition parseFloat_String (s : string) : float :=
  let '(neg, s1) := read_sign (skip_white_space s) in
  if is_prefix "Infinity" s1 then (if neg then neg_infinity else infinity)
  else
    let '(mi, ci, r1) := read_digits 10 s1 0 0 in
    let '(mf, cf, r2) :=
      match r1 with
      | String "." r => read_digits 10 r mi 0
      | _ => (mi, 0, r1)
      end in
    if ci + cf =? 0 then nan
    else
      let ex :=
        match r2 with
        | String "e" r | String "E" r =>
            let '(eneg, r') := read_sign r in
            let '(ev, ec, _) := read_digits 10 r' 0 0 in
            if ec =? 0 then 0 else if eneg then - ev else ev
        | _ => 0
        end in
      decimal_to_Number neg mf (ex - cf).

(** ** [parseInt] and [parseFloat] on values

    Both start with [ToString] of their argument.  It throws on an object
    with an own (hence not callable) [toString] property, also inside an
    array, which joins the strings of all its elements. *)

Definition has_key (k : string) (ps : list (string * JsValue)) : bool :=
  existsb (fun kv => String.eqb k (fst kv)) ps.

Fixpoint ToString_throws (v : JsValue) : bool :=
  match v with
  | JsObject ps => has_key "toString" ps
  | JsArray l => existsb ToString_throws l
  | _ => false
  end.

Definition parseInt_Number (x : float) : float :=
  match Prim2SF x with
  | S754_zero _ => 0%float
  | S754_finite neg m e => signed_integer neg (integer_prefix (Z.pos m) e)
  | _ => nan
  end.

(** [Number::toString] reads back as the number itself; [-0] prints as [0]. *)
Definition parseFloat_Number (x : float) : float :=
  if PrimFloat.eqb x 0%float then 0%float else x.

(** The string of an array starts with the string of its first element
    (empty for [null] and [undefined]) and a comma ends the number; [true],
    [null], [undefined] and [[object Object]] start no number. *)
Fixpoint parseInt_value (v : JsValue) : float :=
  match v with
  | JsNumber x => parseInt_Number x
  | JsString s => parseInt_String s
  | JsArray (e :: _) => parseInt_value e
  | _ => nan
  end.

Fixpoint parseFloat_value (v : JsValue) : float :=
  match v with
  | JsNumber x => parseFloat_Number x
  | JsString s => parseFloat_String s
  | JsArray (e :: _) => parseFloat_value e
  | _ => nan
  end.

Definition cannot_convert : Exn :=
  TypeError "Cannot convert object to primitive value".

Definition parseInt (v : JsValue) : Completion float :=
  if ToString_throws v then Throw cannot_convert else Normal (parseInt_value v).

Definition parseFloat (v : JsValue) : Completion float :=
  if ToString_throws v then Throw cannot_convert else Normal (parseFloat_value v).

(** ** [JSON.stringify]

    The text is represented by the value it denotes: numbers that are not
    finite print as [null], [-0] as [0], a property whose value is
    [undefined] is left out, and [undefined] in an array prints as [null]. *)
Fixpoint JSON_stringify (v : JsValue) : JsValue :=
  match v with
  | JsNumber x =>
      if is_finite x then JsNumber (parseFloat_Number x) else JsNull
  | JsArray l =>
      JsArray (map (fun e => match e with
                             | JsUndefined => JsNull
                             | _ => JSON_stringify e
                             end) l)
  | JsObject ps =>
      JsObject ((fix props (ps : list (string * JsValue)) :=
                   match ps with
                   | [] => []
                   | (k, JsUndefined) :: ps' => props ps'
                   | (k, w) :: ps' => (k, JSON_stringify w) :: props ps'
                   end) ps)
  | _ => v
  end.

End JS.

(* ===================================================================== *)
(** * The relay                                                           *)
(* ===================================================================== *)

Module Relay.
Import JS.

(** ** Sockets and the process state *)

Inductive ReadyState : Type := CONNECTING | OPEN | CLOSING | CLOSED.

#[export] Instance ReadyState_eq_dec : EqDecision ReadyState.
Proof. solve_decision. Defined.

(** A front-end socket: its state and the messages transmitted on it so
    far, oldest first.  A message is the JSON text handed to [send],
    represented by the value it denotes. *)
Record ClientSocket : Type := mkSocket {
  readyState : ReadyState;
  sent : list JsValue
}.

Inductive Callback : Type := ConnectToKuCoin.

(** The module-level state of [server.js]: the set [clients] in insertion
    order (sockets are references into [sockets]), the upstream socket
    [kucoinWs] ([None] is [null]), [kucoinWsUrl] as the two values spliced
    into the template [`${endpoint}?token=${token}`], the pending
    [setTimeout] calls with their delays in milliseconds, and the number of
    upstream sockets opened so far, which names the next one. *)
Record Server : Type := mkServer {
  clients : list nat;
  sockets : gmap nat ClientSocket;
  kucoinWs : option nat;
  kucoinWsUrl : option (JsValue * JsValue);
  timers : list (Z * Callback);
  opened : nat
}.

Definition set_sockets (f : gmap nat ClientSocket -> gmap nat ClientSocket)
  (S : Server) : Server :=
  mkServer (clients S) (f (sockets S)) (kucoinWs S) (kucoinWsUrl S) (timers S) (opened S).

Definition set_clients (f : list nat -> list nat) (S : Server) : Server :=
  mkServer (f (clients S)) (sockets S) (kucoinWs S) (kucoinWsUrl S) (timers S) (opened S).

Definition setTimeout (cb : Callback) (delay : Z) (S : Server) : Server :=
  mkServer (clients S) (sockets S) (kucoinWs S) (kucoinWsUrl S)
           (timers S ++ [(delay, cb)]) (opened S).

Definition not_open : Exn :=
  Error "WebSocket is not open: readyState 0 (CONNECTING)".

(** [ws.send(message)] without a callback, as ws 7 and later do it: it
    throws while the socket is connecting, transmits when it is open, and
    drops the message once the socket is closing or closed. *)
Definition ws_send (ws : nat) (message : JsValue) (S : Server) : Completion Server :=
  match sockets S !! ws with
  | Some sock =>
      match readyState sock with
      | CONNECTING => Throw not_open
      | OPEN => Normal (set_sockets <[ws := mkSocket OPEN (sent sock ++ [message])]> S)
      | CLOSING | CLOSED => Normal S
      end
  | None => Normal S
  end.

(** [try { body } catch (error) { handler }]. *)
Definition try_catch {A : Type} (body : Completion A) (handler : Exn -> Completion A)
  : Completion A :=
  match body with
  | Normal a => Normal a
  | Throw e => handler e
  end.

(** A template literal converts each spliced value with [ToString]. *)
Definition template (vs : list JsValue) : Completion unit :=
  if existsb ToString_throws vs then Throw cannot_convert else Normal tt.

(** ** Candles *)

Record Candle : Type := mkCandle {
  time : float;
  open : float;
  close : float;
  high : float;
  low : float
}.

(** The object literal [{ time, open, close, high, low }]. *)
Definition Candle_value (c : Candle) : JsValue :=
  JsObject [("time", JsNumber (time c)); ("open", JsNumber (open c));
            ("close", JsNumber (close c)); ("high", JsNumber (high c));
            ("low", JsNumber (low c))].

(** ** [broadcast] *)

Fixpoint forEach (f : nat -> Server -> Completion Server) (l : list nat) (S : Server)
  : Completion Server :=
  match l with
  | [] => Normal S
  | c :: l' => S' ← f c S; forEach f l' S'
  end.

(** The callback of [clients.forEach] in [broadcast]. *)
Definition send_if_open (message : JsValue) (client : nat) (S : Server)
  : Completion Server :=
  match sockets S !! client with
  | Some sock =>
      if decide (readyState sock = OPEN)
      then ws_send client message S
      else Normal S
  | None => Normal S
  end.

Definition broadcast (data : JsValue) (S : Server) : Completion Server :=
  let message := JSON_stringify data in
  forEach (send_if_open message) (clients S) S.

(** ** The upstream connection *)

(** [connectToKuCoin], given the settled result of [axios.post] and the
    completion of [new WebSocket(kucoinWsUrl)] (which throws on a URL it
    cannot parse).  Nothing before the [await] reads or writes the state:
    [S] is the state when the function resumes. *)
Definition connectToKuCoin (bootstrap : Completion JsValue) (construct : Completion unit)
  (S : Server) : Completion Server :=
  let fetched :=
    response ← bootstrap;
    body ← get_prop response "data";
    data ← get_prop body "data";
    servers ← get_prop data "instanceServers";
    server ← get_index servers 0;
    endpoint ← get_prop server "endpoint";
    body' ← get_prop response "data";
    data' ← get_prop body' "data";
    token ← get_prop data' "token";
    _ ← template [endpoint; token];
    Normal (endpoint, token) in
  match fetched with
  | Throw e => Normal (setTimeout ConnectToKuCoin 10000 S)
  | Normal url =>
      _ ← construct;
      Normal (mkServer (clients S) (sockets S) (Some (opened S)) (Some url)
                       (timers S) (Datatypes.S (opened S)))
  end.

(** The [realTimeCandle] object literal of the ['message'] handler. *)
Definition realTimeCandle (kucoinCandle : JsValue) : Completion Candle :=
  t ← (candles ← get_prop kucoinCandle "candles"; v ← get_index candles 0; parseInt v);
  o ← (candles ← get_prop kucoinCandle "candles"; v ← get_index candles 1; parseFloat v);
  c ← (candles ← get_prop kucoinCandle "candles"; v ← get_index candles 2; parseFloat v);
  h ← (candles ← get_prop kucoinCandle "candles"; v ← get_index candles 3; parseFloat v);
  l ← (candles ← get_prop kucoinCandle "candles"; v ← get_index candles 4; parseFloat v);
  Normal (mkCandle (t / 1000) o c h l).

(** The test of the ['message'] handler:
    [msg.type === 'message' && msg.subject && msg.subject.includes('candle.stick')]. *)
Definition is_candle_update (msg : JsValue) : Completion bool :=
  type ← get_prop msg "type";
  if strict_eq_string type "message" then
    subject ← get_prop msg "subject";
    if truthy subject then
      subject' ← get_prop msg "subject";
      call_includes subject' "candle.stick"
    else Normal false
  else Normal false.

(** [kucoinWs.on('message', ...)], given the completion of
    [JSON.parse(data)]. *)
Definition on_kucoin_message (parsed : Completion JsValue) (S : Server)
  : Completion Server :=
  msg ← parsed;
  update ← is_candle_update msg;
  if (update : bool) then
    kucoinCandle ← get_prop msg "data";
    candle ← realTimeCandle kucoinCandle;
    topic ← get_prop msg "topic";
    broadcast (JsObject [("topic", topic); ("data", Candle_value candle)]) S
  else Normal S.

(** [kucoinWs.on('close', ...)]. *)
Definition on_kucoin_close (code reason : JsValue) (S : Server) : Server :=
  setTimeout ConnectToKuCoin 5000
    (mkServer (clients S) (sockets S) None (kucoinWsUrl S) (timers S) (opened S)).

(** ** Front-end connections *)

(** [wss.on('connection', ...)] for a new socket [clientWs]. *)
Definition on_connection (clientWs : nat) (S : Server) : Server :=
  set_clients (fun cs => if decide (clientWs ∈ cs) then cs else cs ++ [clientWs])
    (set_sockets <[clientWs := mkSocket OPEN []]> S).

(** [clientWs.on('close', ...)]. *)
Definition on_client_close (clientWs : nat) (S : Server) : Server :=
  set_clients (filter (fun c => c ≠ clientWs)) S.

(** The callback of [kucoinData.map]. *)
Definition formatCandle (d : JsValue) : Completion Candle :=
  t ← (v ← get_index d 0; parseInt v);
  o ← (v ← get_index d 1; parseFloat v);
  c ← (v ← get_index d 2; parseFloat v);
  h ← (v ← get_index d 3; parseFloat v);
  l ← (v ← get_index d 4; parseFloat v);
  Normal (mkCandle (t / 1000) o c h l).

(** [formattedCandles.reverse()] on the mapped records. *)
Definition finalCandles (records : list JsValue) : Completion (list Candle) :=
  formattedCandles ← mapC formatCandle records;
  Normal (rev formattedCandles).

Definition history_data (candles : list Candle) : JsValue :=
  JsObject [("topic", JsString "history_data");
            ("data", JsArray (map Candle_value candles))].

Definition history_error : JsValue :=
  JsObject [("topic", JsString "error");
            ("message", JsString "Failed to fetch history.")].

(** [clientWs.on('message', ...)], given the completion of
    [JSON.parse(message)] and the settled result of [axios.get] for the
    [symbol] and [granularity] parameters.  Nothing before the [await]
    reads or writes the state: [S] is the state when the handler resumes. *)
Definition on_client_message (clientWs : nat) (parsed : Completion JsValue)
  (axios_get : JsValue -> JsValue -> Completion JsValue) (S : Server)
  : Completion Server :=
  msg ← parsed;
  topic ← get_prop msg "topic";
  if strict_eq_string topic "request_history" then
    symbol ← get_prop msg "symbol";
    interval ← get_prop msg "interval";
    try_catch
      (_ ← template [symbol; interval];
       response ← axios_get symbol interval;
       body ← get_prop response "data";
       kucoinData ← get_prop body "data";
       match kucoinData with
       | JsArray ((_ :: _) as records) =>
           candles ← finalCandles records;
           ws_send clientWs (JSON_stringify (history_data candles)) S
       | _ => ws_send clientWs (JSON_stringify (history_data [])) S
       end)
      (fun error => ws_send clientWs (JSON_stringify history_error) S)
  else Normal S.

End Relay.

(* ===================================================================== *)
(** * Vocabulary of the statements                                        *)
(* ===================================================================== *)

Module Vocabulary.
Import JS Relay.

(** ** Ordering of a batch by time *)

Fixpoint chain (R : float -> float -> bool) (l : list float) : bool :=
  match l with
  | a :: ((b :: _) as l') => R a b && chain R l'
  | _ => true
  end.

Definition strictly_ascending : list float -> bool :=
  chain PrimFloat.ltb.

Definition strictly_descending : list float -> bool :=
  chain (fun a b => PrimFloat.ltb b a).

Definition times (candles : list Candle) : list float := map time candles.

(** ** Delivery to the front-end sockets *)

(** What a socket has been sent once [message] is pushed to it. *)
Definition received (message : JsValue) (sock : ClientSocket) : ClientSocket :=
  if decide (readyState sock = OPEN)
  then mkSocket OPEN (sent sock ++ [message])
  else sock.

(** Everything but the sockets' outboxes. *)
Definition same_process (S S' : Server) : Prop :=
  clients S' = clients S /\ kucoinWs S' = kucoinWs S /\
  kucoinWsUrl S' = kucoinWsUrl S /\ timers S' = timers S /\ opened S' = opened S.

(** What only the reply on [clientWs] changes. *)
Definition replied (clientWs : nat) (sock : ClientSocket) (reply : JsValue)
  (S S' : Server) : Prop :=
  sockets S' !! clientWs = Some (mkSocket OPEN (sent sock ++ [reply])) /\
  (forall c, c <> clientWs -> sockets S' !! c = sockets S !! c) /\
  same_process S S'.

(** ** History requests *)

Definition is_history_request (msg : JsValue) : bool :=
  match get_prop msg "topic" with
  | Normal topic => strict_eq_string topic "request_history"
  | Throw _ => false
  end.

(** A property of a message that is not [null] or [undefined]. *)
Definition param (msg : JsValue) (k : string) : JsValue :=
  match get_prop msg k with
  | Normal v => v
  | Throw _ => JsUndefined
  end.

(** The body of the [try] block, up to the reply. *)
Definition history_reply (msg : JsValue)
  (axios_get : JsValue -> JsValue -> Completion JsValue) : Completion JsValue :=
  _ ← template [param msg "symbol"; param msg "interval"];
  response ← axios_get (param msg "symbol") (param msg "interval");
  body ← get_prop response "data";
  kucoinData ← get_prop body "data";
  match kucoinData with
  | JsArray ((_ :: _) as records) =>
      candles ← finalCandles records;
      Normal (JSON_stringify (history_data candles))
  | _ => Normal (JSON_stringify (history_data []))
  end.

End Vocabulary.

(* ===================================================================== *)
(** * Sample states and messages                                          *)
(* ===================================================================== *)

Module Samples.
Import JS Relay.

Definition record (t o c h l : float) : JsValue :=
  JsArray (map JsNumber [t; o; c; h; l]).

Definition newest_first : list JsValue :=
  [record 2000 10 12 13 9; record 1000 8 9 9 7].

Definition oldest_first : list JsValue :=
  [record 1000 8 9 9 7; record 2000 10 12 13 9].

(** An axios response: the parsed body is its [data] property, and the
    exchange wraps the records in [{ code, data }]. *)
Definition kline_response (kucoinData : JsValue) : JsValue :=
  JsObject [("status", JsNumber 200);
            ("data", JsObject [("code", JsString "200000"); ("data", kucoinData)])].

(** The exchange answering with an error body that has no [data]. *)
Definition no_data_response : JsValue :=
  JsObject [("status", JsNumber 200);
            ("data", JsObject [("code", JsString "400100");
                               ("msg", JsString "Invalid symbol")])].

Definition history_request (symbol interval : string) : JsValue :=
  JsObject [("topic", JsString "request_history");
            ("symbol", JsString symbol); ("interval", JsString interval)].

Definition live_update : JsValue :=
  JsObject [("topic", JsString "/contractMarket/limitCandle:SOLUSDTM_1min");
            ("data", Candle_value (mkCandle 1 8 9 9 7))].

(** A live candle update whose array stops before index 2. *)
Definition update_without_close : JsValue :=
  JsObject [("type", JsString "message");
            ("topic", JsString "/contractMarket/limitCandle:SOLUSDTM_1min");
            ("subject", JsString "candle.stick");
            ("data", JsObject [("symbol", JsString "SOLUSDTM");
                               ("candles", JsArray [JsString "1700000000000";
                                                    JsString "10.5"])])].

(** A relay with one front-end socket, [7], connected and open. *)
Definition one_client : Server :=
  on_connection 7 (mkServer [] ∅ None None [] 0).

(** Three subscribers, the second one closed. *)
Definition three_clients : Server :=
  mkServer [1; 2; 3]%nat
           (<[1%nat := mkSocket OPEN []]>
              (<[2%nat := mkSocket CLOSED []]> {[3%nat := mkSocket OPEN []]}))
           None None [] 0.

End Samples.

(* ===================================================================== *)
(** * The upstream socket and the event loop                              *)
(* ===================================================================== *)

Module Upstream.
Import JS Relay.

Definition SYMBOL : string := "SOLUSDTM".

(** [Date.now().toString()]: the clock is a whole, non-negative number of
    milliseconds, which prints as its decimal digits. *)
Definition Date_now_toString (now : N) : string :=
  NilEmpty.string_of_uint (N.to_uint now).

(** The [subscription] object of the ['open'] handler. *)
Definition subscription (now : N) : JsValue :=
  JsObject [("id", JsString (Date_now_toString now));
            ("type", JsString "subscribe");
            ("topic", JsString ("/contractMarket/limitCandle:" ++ SYMBOL ++ "_1min")%string);
            ("subject", JsString "candle.stick");
            ("privateChannel", JsBool false);
            ("response", JsBool true)].

(** The object the keep-alive interval sends. *)
Definition ping (now : N) : JsValue :=
  JsObject [("id", JsString (Date_now_toString now)); ("type", JsString "ping")].

(** The whole process: the module-level state of [server.js], the upstream
    sockets created so far (handle, state, messages transmitted), the calls
    of [connectToKuCoin] that are waiting for [axios.post], and the number
    of [setInterval] timers registered (none is ever cleared). *)
Record System : Type := mkSystem {
  server : Server;
  upstream : gmap nat ClientSocket;
  awaiting : nat;
  intervals : nat
}.

Definition set_server (S : Server) (Σ : System) : System :=
  mkSystem S (upstream Σ) (awaiting Σ) (intervals Σ).

Definition set_upstream (f : gmap nat ClientSocket -> gmap nat ClientSocket)
  (Σ : System) : System :=
  mkSystem (server Σ) (f (upstream Σ)) (awaiting Σ) (intervals Σ).

(** [kucoinWs.send(message)] on the upstream socket [id], as [ws_send]. *)
Definition upstream_send (id : nat) (message : JsValue) (Σ : System)
  : Completion System :=
  match upstream Σ !! id with
  | Some sock =>
      match readyState sock with
      | CONNECTING => Throw not_open
      | OPEN => Normal (set_upstream <[id := mkSocket OPEN (sent sock ++ [message])]> Σ)
      | CLOSING | CLOSED => Normal Σ
      end
  | None => Normal Σ
  end.

(** [ws.close()]: nothing on a closed socket, otherwise the socket is
    closing until its ['close'] event. *)
Definition ws_close (sock : ClientSocket) : ClientSocket :=
  match readyState sock with
  | CLOSED => sock
  | _ => mkSocket CLOSING (sent sock)
  end.

(** [kucoinWs.on('open', ...)] at clock [now]: the handler reads the
    module-level [kucoinWs], not the socket that opened. *)
Definition on_kucoin_open (now : N) (Σ : System) : Completion System :=
  match kucoinWs (server Σ) with
  | None => Throw (TypeError "Cannot read properties of null (reading 'send')")
  | Some id =>
      Σ' ← upstream_send id (JSON_stringify (subscription now)) Σ;
      Normal (mkSystem (server Σ') (upstream Σ') (awaiting Σ') (S (intervals Σ')))
  end.

(** The callback of [setInterval], at clock [now]. *)
Definition on_interval (now : N) (Σ : System) : Completion System :=
  match kucoinWs (server Σ) with
  | None => Normal Σ
  | Some id =>
      match upstream Σ !! id with
      | Some sock =>
          if decide (readyState sock = OPEN)
          then upstream_send id (JSON_stringify (ping now)) Σ
          else Normal Σ
      | None => Normal Σ
      end
  end.

(** [kucoinWs.on('error', ...)]: [kucoinWs.close()]. *)
Definition on_kucoin_error (Σ : System) : Completion System :=
  match kucoinWs (server Σ) with
  | None => Throw (TypeError "Cannot read properties of null (reading 'close')")
  | Some id => Normal (set_upstream (alter ws_close id) Σ)
  end.

(** [connectToKuCoin] resuming after [await axios.post]: when it opens a
    socket, the socket starts connecting under the handle [opened]. *)
Definition on_bootstrap (bootstrap : Completion JsValue) (construct : Completion unit)
  (Σ : System) : Completion System :=
  S' ← connectToKuCoin bootstrap construct (server Σ);
  Normal (mkSystem S'
            (if decide (opened S' = opened (server Σ)) then upstream Σ
             else <[opened (server Σ) := mkSocket CONNECTING []]> (upstream Σ))
            (pred (awaiting Σ)) (intervals Σ)).

(** ** Events

    What the runtime and the ws library deliver to the process. *)
Inductive Event : Type :=
| TimerFires (i : nat)
| BootstrapSettles (bootstrap : Completion JsValue) (construct : Completion unit)
| UpstreamOpens (id : nat) (now : N)
| UpstreamMessage (id : nat) (parsed : Completion JsValue)
| UpstreamErrors (id : nat)
| UpstreamCloses (id : nat) (code reason : JsValue)
| IntervalFires (k : nat) (now : N)
| ClientConnects (clientWs : nat)
| ClientMessage (clientWs : nat) (parsed : Completion JsValue)
    (axios_get : JsValue -> JsValue -> Completion JsValue)
| ClientClosing (clientWs : nat)
| ClientCloses (clientWs : nat).

Definition state_of (heap : gmap nat ClientSocket) (id : nat) : option ReadyState :=
  readyState <$> heap !! id.

Definition is_state (heap : gmap nat ClientSocket) (id : nat) (st : ReadyState) : bool :=
  bool_decide (state_of heap id = Some st).

Definition not_closed (heap : gmap nat ClientSocket) (id : nat) : bool :=
  match state_of heap id with
  | Some CLOSED | None => false
  | Some _ => true
  end.

(** When an event can occur: a pending timer fires once; a call that is
    waiting settles; a socket opens while it is connecting, delivers
    messages while it is open, and reports errors and closes as long as it
    has not closed; an interval that was registered fires; a new front-end
    socket is one the process has not seen; the message handler of a
    front-end socket resumes whatever has become of the socket. *)
Definition enabled (ev : Event) (Σ : System) : bool :=
  match ev with
  | TimerFires i => bool_decide (i < length (timers (server Σ)))%nat
  | BootstrapSettles _ _ => bool_decide (0 < awaiting Σ)%nat
  | UpstreamOpens id _ => is_state (upstream Σ) id CONNECTING
  | UpstreamMessage id _ => is_state (upstream Σ) id OPEN
  | UpstreamErrors id => not_closed (upstream Σ) id
  | UpstreamCloses id _ _ => not_closed (upstream Σ) id
  | IntervalFires k _ => bool_decide (k < intervals Σ)%nat
  | ClientConnects clientWs => bool_decide (sockets (server Σ) !! clientWs = None)
  | ClientMessage clientWs _ _ => bool_decide (is_Some (sockets (server Σ) !! clientWs))
  | ClientClosing clientWs => is_state (sockets (server Σ)) clientWs OPEN
  | ClientCloses clientWs => not_closed (sockets (server Σ)) clientWs
  end.

Definition set_state (st : ReadyState) (sock : ClientSocket) : ClientSocket :=
  mkSocket st (sent sock).

Definition lift (c : Completion Server) (Σ : System) : Completion System :=
  S' ← c; Normal (set_server S' Σ).

(** What an event does: the change the runtime or the library makes, then
    the handler the server registered for it. *)
Definition dispatch (ev : Event) (Σ : System) : Completion System :=
  match ev with
  | TimerFires i =>
      Normal (mkSystem
                (mkServer (clients (server Σ)) (sockets (server Σ)) (kucoinWs (server Σ))
                          (kucoinWsUrl (server Σ)) (delete i (timers (server Σ)))
                          (opened (server Σ)))
                (upstream Σ) (S (awaiting Σ)) (intervals Σ))
  | BootstrapSettles bootstrap construct => on_bootstrap bootstrap construct Σ
  | UpstreamOpens id now =>
      on_kucoin_open now (set_upstream (alter (set_state OPEN) id) Σ)
  | UpstreamMessage _ parsed => lift (on_kucoin_message parsed (server Σ)) Σ
  | UpstreamErrors id =>
      on_kucoin_error (set_upstream (alter (set_state CLOSING) id) Σ)
  | UpstreamCloses id code reason =>
      Normal (set_server (on_kucoin_close code reason (server Σ))
                (set_upstream (alter (set_state CLOSED) id) Σ))
  | IntervalFires _ now => on_interval now Σ
  | ClientConnects clientWs => Normal (set_server (on_connection clientWs (server Σ)) Σ)
  | ClientMessage clientWs parsed axios_get =>
      lift (on_client_message clientWs parsed axios_get (server Σ)) Σ
  | ClientClosing clientWs =>
      Normal (set_server (set_sockets (alter (set_state CLOSING) clientWs) (server Σ)) Σ)
  | ClientCloses clientWs =>
      Normal (set_server
                (on_client_close clientWs
                   (set_sockets (alter (set_state CLOSED) clientWs) (server Σ))) Σ)
  end.

(** The process after a sequence of events; [None] when an event cannot
    occur or a handler throws with nothing to catch it. *)
Fixpoint run (evs : list Event) (Σ : System) : option System :=
  match evs with
  | [] => Some Σ
  | ev :: evs' =>
      if enabled ev Σ then
        match dispatch ev Σ with
        | Normal Σ' => run evs' Σ'
        | Throw _ => None
        end
      else None
  end.

(** The process once [server.js] has been loaded: nothing connected,
    [connectToKuCoin()] called and waiting. *)
Definition boot : System :=
  mkSystem (mkServer [] ∅ None None [] 0) ∅ 1 0.

End Upstream.

(* ===================================================================== *)
(** * The front end ([CandlestickChart.js])                               *)
(* ===================================================================== *)

Module Client.
Import JS.

(** The calls the component makes on the chart series. *)
Inductive ChartCall : Type :=
| setData (data : list JsValue)
| update (candleData : JsValue).

(** The [historyRequest] object of [ws.onopen], for the component's
    [symbol] and [interval] properties. *)
Definition historyRequest (symbol interval : JsValue) : JsValue :=
  JsObject [("topic", JsString "request_history");
            ("symbol", symbol); ("interval", interval)].

(** [ws.onmessage], given the completion of [JSON.parse(msg.data)] and
    whether [candleSeriesRef.current] is set: the call it makes on the
    series, if any.  Whatever is thrown on the way is caught and logged. *)
Definition onmessage (parsed : Completion JsValue) (series : bool) : option ChartCall :=
  let body : Completion (option ChartCall) :=
    message ← parsed;
    if negb series then Normal None else
    topic ← get_prop message "topic";
    if strict_eq_string topic "history_data" then
      data ← get_prop message "data";
      match data with
      | JsArray ((_ :: _) as candles) => Normal (Some (setData candles))
      | _ => Normal None
      end
    else
      topic' ← get_prop message "topic";
      live ← (if truthy topic' then
                topic'' ← get_prop message "topic";
                call_includes topic'' "limitCandle"
              else Normal false);
      if (live : bool) then
        candleData ← get_prop message "data";
        if negb (truthy candleData) then Normal None else
        time ← get_prop candleData "time";
        if negb (truthy time) then Normal None else
        close ← get_prop candleData "close";
        if negb (truthy close) then Normal None else
        Normal (Some (update candleData))
      else Normal None in
  match body with
  | Normal call => call
  | Throw _ => None
  end.

End Client.

(* ===================================================================== *)
(** * Invariants of the process                                           *)
(* ===================================================================== *)

Module Invariant.
Import JS Relay Vocabulary Upstream.

(** The [try] block of [connectToKuCoin]: the two values spliced into
    [kucoinWsUrl]. *)
Definition endpoint_and_token (bootstrap : Completion JsValue)
  : Completion (JsValue * JsValue) :=
  response ← bootstrap;
  body ← get_prop response "data";
  data ← get_prop body "data";
  servers ← get_prop data "instanceServers";
  server ← get_index servers 0;
  endpoint ← get_prop server "endpoint";
  body' ← get_prop response "data";
  data' ← get_prop body' "data";
  token ← get_prop data' "token";
  _ ← template [endpoint; token];
  Normal (endpoint, token).

(** The sockets of [S'] are in the states they are in in [S]. *)
Definition same_states (S S' : Server) : Prop :=
  forall c, readyState <$> sockets S' !! c = readyState <$> sockets S !! c.

(** Every socket of [S'] was sent what it was sent in [S], and then
    [more]. *)
Definition sent_more (S S' : Server) (c : nat) (more : list JsValue) : Prop :=
  match sockets S !! c with
  | Some sock => sockets S' !! c = Some (mkSocket (readyState sock) (sent sock ++ more))
  | None => sockets S' !! c = None
  end.

(** The part of the server's state the upstream connection lives in. *)
Definition same_connection (S S' : Server) : Prop :=
  kucoinWs S' = kucoinWs S /\ timers S' = timers S /\ opened S' = opened S.

(** There is one way to the exchange at a time: the upstream socket that
    [kucoinWs] names and that has not closed, or else a single retry, as a
    pending timer or as a call of [connectToKuCoin] waiting for the
    bootstrap request.  Handles from [opened] on are unused. *)
Definition single_upstream (Σ : System) : Prop :=
  (forall id, (opened (server Σ) <= id)%nat -> upstream Σ !! id = None) /\
  match kucoinWs (server Σ) with
  | Some id =>
      (exists sock, upstream Σ !! id = Some sock /\ readyState sock <> CLOSED) /\
      (forall j sock, j <> id -> upstream Σ !! j = Some sock -> readyState sock = CLOSED) /\
      timers (server Σ) = [] /\ awaiting Σ = 0%nat
  | None =>
      (forall j sock, upstream Σ !! j = Some sock -> readyState sock = CLOSED) /\
      (length (timers (server Σ)) + awaiting Σ = 1)%nat
  end.

(** The set of subscribers holds, without repetition, exactly the
    front-end sockets that have not closed; none of them is connecting. *)
Definition registry_ok (S : Server) : Prop :=
  NoDup (clients S) /\
  (forall c, c ∈ clients S ->
     exists sock, sockets S !! c = Some sock /\ readyState sock <> CLOSED) /\
  (forall c sock, sockets S !! c = Some sock -> readyState sock <> CLOSED ->
     c ∈ clients S) /\
  (forall c sock, sockets S !! c = Some sock -> readyState sock <> CONNECTING).

Definition is_subscribe (m : JsValue) : Prop :=
  exists now, m = JSON_stringify (subscription now).

Definition is_ping (m : JsValue) : Prop :=
  exists now, m = JSON_stringify (ping now).

(** What the relay says to the exchange on one socket: nothing while it
    connects, then the subscription, then pings only. *)
Definition protocol_ok (Σ : System) : Prop :=
  forall id sock, upstream Σ !! id = Some sock ->
    (readyState sock = CONNECTING -> sent sock = []) /\
    (readyState sock = OPEN -> sent sock <> []) /\
    (forall m rest, sent sock = m :: rest -> is_subscribe m /\ Forall is_ping rest).

(** Every pending timer is a reconnection in 5 or in 10 seconds. *)
Definition timers_ok (S : Server) : Prop :=
  Forall (fun t => t = (5000, ConnectToKuCoin) \/ t = (10000, ConnectToKuCoin)) (timers S).

Definition invariant (Σ : System) : Prop :=
  single_upstream Σ /\ registry_ok (server Σ) /\ protocol_ok Σ /\ timers_ok (server Σ).

(** The number of times an upstream socket has opened. *)
Fixpoint opens (evs : list Event) : nat :=
  match evs with
  | [] => 0
  | UpstreamOpens _ _ :: evs' => S (opens evs')
  | _ :: evs' => opens evs'
  end.

(** The five fields of a candle, by the index they are read from. *)
Definition field (i : nat) (c : Candle) : float :=
  match i with
  | 0%nat => time c
  | 1%nat => open c
  | 2%nat => close c
  | 3%nat => high c
  | _ => low c
  end.

(** A number the front end takes for present: finite and not zero. *)
Definition drawable (x : float) : bool :=
  is_finite x && negb (PrimFloat.eqb x 0%float).

(** A candle as it travels in a message. *)
Definition candle_json (c : Candle) : JsValue := JSON_stringify (Candle_value c).

(** The events whose handlers read nothing that comes from outside the
    process: all but the bootstrap response and the two kinds of message. *)
Definition internal (ev : Event) : bool :=
  match ev with
  | BootstrapSettles _ _ | UpstreamMessage _ _ | ClientMessage _ _ _ => false
  | _ => true
  end.

End Invariant.

(* ===================================================================== *)
(** * A run of the process                                                *)
(* ===================================================================== *)

Module Scenario.
Import JS Relay Samples Upstream.

(** A bootstrap response with one instance server and a token. *)
Definition bullet_response : JsValue :=
  JsObject [("status", JsNumber 200);
            ("data", JsObject [("code", JsString "200000");
                               ("data", JsObject [
                                  ("token", JsString "abc");
                                  ("instanceServers", JsArray [
                                     JsObject [("endpoint", JsString "wss://ws.example/endpoint");
                                               ("pingInterval", JsNumber 18000)]])])])].

(** A bootstrap response whose body has no token. *)
Definition bullet_without_token : JsValue :=
  JsObject [("data", JsObject [("data", JsObject [
     ("instanceServers", JsArray [JsObject [("endpoint", JsString "wss://ws.example/endpoint")]])])])].

(** A candle update with all five fields, as strings. *)
Definition candle_update : JsValue :=
  JsObject [("type", JsString "message");
            ("topic", JsString "/contractMarket/limitCandle:SOLUSDTM_1min");
            ("subject", JsString "candle.stick");
            ("data", JsObject [("symbol", JsString "SOLUSDTM");
                               ("candles", JsArray [JsString "1700000040000";
                                                    JsString "10.5"; JsString "10.75";
                                                    JsString "11"; JsString "10.25"])])].

(** The bootstrap request fails once, the retry connects, a front end
    connects and asks for history, a candle arrives, the upstream socket
    fails and is replaced, and the keep-alive intervals fire. *)
Definition events : list Event :=
  [BootstrapSettles (Throw (Error "getaddrinfo ENOTFOUND")) (Normal tt);
   TimerFires 0;
   BootstrapSettles (Normal bullet_response) (Normal tt);
   UpstreamOpens 0 1700000000000;
   ClientConnects 7;
   ClientMessage 7 (Normal (history_request "SOLUSDTM" "1min"))
     (fun _ _ => Normal (kline_response (JsArray newest_first)));
   UpstreamMessage 0 (Normal candle_update);
   IntervalFires 0 1700000025000;
   UpstreamErrors 0;
   UpstreamCloses 0 (JsNumber 1006) (JsString "");
   TimerFires 0;
   BootstrapSettles (Normal bullet_response) (Normal tt);
   UpstreamOpens 1 1700000030000;
   ClientConnects 8;
   ClientClosing 7;
   ClientCloses 7].

Definition reached : System :=
  match run events boot with
  | Some Σ => Σ
  | None => boot
  end.

End Scenario.

(* ===================================================================== *)
(** * Properties of the relay                                             *)
(* ===================================================================== *)

Module Properties.
Import JS Relay Vocabulary Samples.

(** ** Ordering of a batch by time *)

Lemma chain_snoc R l a b :
  chain R ((l ++ [a]) ++ [b]) = chain R (l ++ [a]) && R a b.
Proof.
  induction l as [|x l IH]; simpl.
  - now rewrite andb_true_r.
  - destruct l as [|y l]; simpl in *.
    + now rewrite !andb_true_r.
    + rewrite IH. now rewrite andb_assoc.
Qed.

Lemma chain_rev R l :
  chain R (rev l) = chain (fun a b => R b a) l.
Proof.
  induction l as [|a l IH]; [reflexivity|].
  destruct l as [|b l]; [reflexivity|].
  change (rev (a :: b :: l)) with ((rev l ++ [b]) ++ [a]).
  rewrite chain_snoc.
  change (rev l ++ [b]) with (rev (b :: l)).
  rewrite IH. simpl. apply andb_comm.
Qed.

Lemma ascending_rev l :
  strictly_ascending (rev l) = strictly_descending l.
Proof. apply chain_rev. Qed.

(** ** Delivery to the front-end sockets *)

Lemma same_process_refl S : same_process S S.
Proof. now repeat split. Qed.

Lemma same_process_trans S1 S2 S3 :
  same_process S1 S2 -> same_process S2 S3 -> same_process S1 S3.
Proof. unfold same_process. intuition congruence. Qed.

Lemma same_process_set_sockets f S : same_process S (set_sockets f S).
Proof. now repeat split. Qed.

Create HintDb relay.
#[local] Hint Resolve same_process_refl same_process_set_sockets : relay.

Lemma ws_send_open ws message S sock :
  sockets S !! ws = Some sock ->
  readyState sock = OPEN ->
  ws_send ws message S
  = Normal (set_sockets <[ws := mkSocket OPEN (sent sock ++ [message])]> S).
Proof. intros Hs Ho. unfold ws_send. now rewrite Hs, Ho. Qed.

Lemma send_if_open_spec message client S :
  exists S', send_if_open message client S = Normal S' /\ same_process S S' /\
    sockets S' !! client = received message <$> sockets S !! client /\
    (forall c, c <> client -> sockets S' !! c = sockets S !! c).
Proof.
  unfold send_if_open. destruct (sockets S !! client) as [sock|] eqn:Hs.
  - destruct (decide (readyState sock = OPEN)) as [Ho|Hn].
    + rewrite (ws_send_open _ _ _ _ Hs Ho). eexists. split; [reflexivity|].
      split; [auto with relay|]. simpl. split.
      * rewrite lookup_insert_eq. unfold received. now rewrite decide_True.
      * intros c Hc. now rewrite lookup_insert_ne.
    + exists S. rewrite Hs. simpl. unfold received. rewrite decide_False by assumption.
      auto with relay.
  - exists S. rewrite Hs. auto with relay.
Qed.

Lemma forEach_send message l : forall S,
  NoDup l ->
  exists S', forEach (send_if_open message) l S = Normal S' /\ same_process S S' /\
    forall c, sockets S' !! c =
              if decide (c ∈ l) then received message <$> sockets S !! c
              else sockets S !! c.
Proof.
  induction l as [|a l IH]; intros S Hnd.
  - exists S. split; [reflexivity|]. split; [auto with relay|].
    intros c. rewrite decide_False; [reflexivity|]. apply not_elem_of_nil.
  - apply NoDup_cons in Hnd as [Ha Hnd].
    destruct (send_if_open_spec message a S) as (S1 & E1 & P1 & Ha1 & Hc1).
    destruct (IH S1 Hnd) as (S' & E' & P' & H').
    exists S'. simpl. rewrite E1. split; [exact E'|].
    split; [eapply same_process_trans; eassumption|].
    intros c. rewrite H'. destruct (decide (c = a)) as [->|Hne].
    + rewrite decide_False by assumption.
      rewrite decide_True by (apply elem_of_cons; now left). exact Ha1.
    + rewrite (Hc1 c Hne).
      destruct (decide (c ∈ l)) as [Hin|Hout].
      * rewrite decide_True; [reflexivity|]. apply elem_of_cons; now right.
      * rewrite decide_False; [reflexivity|].
        intros Hin. apply elem_of_cons in Hin as [?|?]; contradiction.
Qed.

(** [broadcast] never throws: every subscriber of the set that is open has
    the message added to what it was sent, and nothing else changes. *)
Lemma broadcast_spec data S :
  NoDup (clients S) ->
  exists S', broadcast data S = Normal S' /\ same_process S S' /\
    forall c, sockets S' !! c =
              if decide (c ∈ clients S)
              then received (JSON_stringify data) <$> sockets S !! c
              else sockets S !! c.
Proof. intros Hnd. exact (forEach_send (JSON_stringify data) (clients S) S Hnd). Qed.

(** ** History requests *)

(** A throwing [send] throws whatever the message. *)
Lemma ws_send_throw ws message message' S e :
  ws_send ws message S = Throw e -> ws_send ws message' S = Throw e.
Proof.
  unfold ws_send. destruct (sockets S !! ws) as [sock|]; [|discriminate].
  destruct (readyState sock); now try discriminate.
Qed.

Lemma try_send_catch clientWs reply fallback S :
  try_catch (ws_send clientWs reply S) (fun _ => ws_send clientWs fallback S)
  = ws_send clientWs reply S.
Proof.
  destruct (ws_send clientWs reply S) eqn:E; [reflexivity|].
  simpl. now apply ws_send_throw with (message := reply).
Qed.

Lemma history_request_reply clientWs msg axios_get S :
  is_history_request msg = true ->
  on_client_message clientWs (Normal msg) axios_get S =
  match history_reply msg axios_get with
  | Normal reply => ws_send clientWs reply S
  | Throw _ => ws_send clientWs (JSON_stringify history_error) S
  end.
Proof.
  unfold is_history_request, on_client_message, history_reply, param.
  destruct msg; try discriminate; cbn [get_prop mbind Completion_bind mret Completion_ret].
  intros ->. unfold mbind, Completion_bind.
  repeat match goal with
         | |- context [match ?c with Normal _ => _ | Throw _ => _ end] =>
             lazymatch c with
             | ws_send _ _ _ => fail
             | _ => destruct c; cbn [try_catch mbind Completion_bind]; [|reflexivity]
             end
         | |- context [match ?v with JsArray _ => _ | _ => _ end] =>
             destruct v as [| | | | |[|? ?]|]; cbn [try_catch mbind Completion_bind]
         end;
    apply try_send_catch.
Qed.

(** ** Normalisation of candles *)

Lemma times_rev l : times (rev l) = rev (times l).
Proof. unfold times. now rewrite map_rev. Qed.

Lemma finalCandles_inv records batch :
  finalCandles records = Normal batch ->
  exists formatted,
    mapC formatCandle records = Normal formatted /\ batch = rev formatted.
Proof.
  unfold finalCandles, mbind, Completion_bind.
  destruct (mapC formatCandle records) as [formatted|]; [|discriminate].
  intros [= <-]. now exists formatted.
Qed.

(** C1, as the server does it: the batch is the mapped response reversed,
    whatever its order, so it is strictly ascending by time exactly when the
    mapped response is strictly descending by time (newest first). *)
Theorem history_batch_order records batch :
  finalCandles records = Normal batch ->
  exists formatted,
    mapC formatCandle records = Normal formatted /\
    batch = rev formatted /\
    strictly_ascending (times batch) = strictly_descending (times formatted).
Proof.
  intros H. destruct (finalCandles_inv _ _ H) as (formatted & Hm & ->).
  exists formatted. repeat split; [assumption|].
  rewrite times_rev. apply ascending_rev.
Qed.

Lemma history_batch_order_witness :
  exists formatted,
    mapC formatCandle newest_first = Normal formatted /\
    [mkCandle 1 8 9 9 7; mkCandle 2 10 12 13 9] = rev formatted /\
    strictly_ascending (times [mkCandle 1 8 9 9 7; mkCandle 2 10 12 13 9])
    = strictly_descending (times formatted).
Proof. apply (history_batch_order newest_first). vm_compute. reflexivity. Defined.

(** C1 fails as stated: a response that is already oldest first comes out
    newest first, in the batch and in the reply the handler sends. *)
Lemma ascending_response_is_inverted :
  finalCandles oldest_first
  = Normal [mkCandle 2 10 12 13 9; mkCandle 1 8 9 9 7] /\
  strictly_ascending (times [mkCandle 2 10 12 13 9; mkCandle 1 8 9 9 7]) = false /\
  on_client_message 7 (Normal (history_request "SOLUSDTM" "1min"))
    (fun _ _ => Normal (kline_response (JsArray oldest_first))) one_client
  = Normal (mkServer [7%nat]
              {[7%nat := mkSocket OPEN [
                 history_data [mkCandle 2 10 12 13 9; mkCandle 1 8 9 9 7]]]}
              None None [] 0).
Proof. repeat split; vm_compute; reflexivity. Qed.

(** C2, as the server does it: in both transformations [time] is the
    floating-point quotient of [parseInt] of the raw timestamp by 1000; no
    step truncates or rounds it to an integer. *)
Theorem time_is_quotient kucoinCandle r c :
  get_prop kucoinCandle "candles" = Normal r ->
  realTimeCandle kucoinCandle = Normal c \/ formatCandle r = Normal c ->
  exists raw t,
    get_index r 0 = Normal raw /\ parseInt raw = Normal t /\
    time c = (t / 1000)%float.
Proof.
  intros Hc. unfold realTimeCandle, formatCandle. rewrite Hc.
  unfold mbind, Completion_bind.
  destruct (get_index r 0) as [raw|]; [|intros [?|?]; discriminate].
  destruct (parseInt raw) as [t|] eqn:Ht; [|intros [?|?]; discriminate].
  intros H. exists raw, t. split; [reflexivity|]. split; [exact Ht|].
  repeat match type of H with
         | context [match ?x with Normal _ => _ | Throw _ => _ end] =>
             destruct x; [|destruct H; discriminate]
         end.
  destruct H as [[= <-]|[= <-]]; reflexivity.
Qed.

Lemma time_is_quotient_witness :
  exists raw t,
    get_index (record 2000 10 12 13 9) 0 = Normal raw /\
    parseInt raw = Normal t /\
    time (mkCandle 2 10 12 13 9) = (t / 1000)%float.
Proof.
  apply (time_is_quotient (JsObject [("candles", record 2000 10 12 13 9)])).
  - reflexivity.
  - left. vm_compute. reflexivity.
Defined.

(** C2 fails as stated: a timestamp that is not a multiple of 1000 keeps
    its sub-second part, live and historical. *)
Lemma sub_second_part_is_kept :
  realTimeCandle (JsObject [("candles", record 1500 10 12 13 9)])
  = Normal (mkCandle 1.5 10 12 13 9) /\
  formatCandle (record 1500 10 12 13 9) = Normal (mkCandle 1.5 10 12 13 9) /\
  Number_isInteger 1.5 = false.
Proof. repeat split; vm_compute; reflexivity. Qed.

(** C10: the live and the historical normalisation are one function of the
    raw record: [parseInt] of index 0 over 1000 for [time], [parseFloat] of
    indices 1 to 4 for [open], [close], [high] and [low], read in that
    order. *)
Theorem live_and_history_normalise_alike kucoinCandle r :
  get_prop kucoinCandle "candles" = Normal r ->
  realTimeCandle kucoinCandle = formatCandle r /\
  forall l, r = JsArray l ->
    formatCandle r =
      (t ← parseInt (nth 0 l JsUndefined);
       o ← parseFloat (nth 1 l JsUndefined);
       c ← parseFloat (nth 2 l JsUndefined);
       h ← parseFloat (nth 3 l JsUndefined);
       lo ← parseFloat (nth 4 l JsUndefined);
       Normal (mkCandle (t / 1000) o c h lo)).
Proof.
  intros Hc. split.
  - unfold realTimeCandle, formatCandle. rewrite Hc. reflexivity.
  - intros l ->. reflexivity.
Qed.

Lemma live_and_history_normalise_alike_witness :
  realTimeCandle (JsObject [("candles", record 2000 10 12 13 9)])
  = formatCandle (record 2000 10 12 13 9) /\
  forall l, record 2000 10 12 13 9 = JsArray l ->
    formatCandle (record 2000 10 12 13 9) =
      (t ← parseInt (nth 0 l JsUndefined);
       o ← parseFloat (nth 1 l JsUndefined);
       c ← parseFloat (nth 2 l JsUndefined);
       h ← parseFloat (nth 3 l JsUndefined);
       lo ← parseFloat (nth 4 l JsUndefined);
       Normal (mkCandle (t / 1000) o c h lo)).
Proof.
  apply (live_and_history_normalise_alike
           (JsObject [("candles", record 2000 10 12 13 9)])).
  reflexivity.
Defined.

(** ** Fan-out *)



(** ** Live updates with missing fields *)

Lemma nth_beyond (l : list JsValue) i :
  (length l <= i)%nat -> nth i l JsUndefined = JsUndefined.
Proof. apply nth_overflow. Qed.

Lemma ToString_nth l i :
  ToString_throws (JsArray l) = false ->
  ToString_throws (nth i l JsUndefined) = false.
Proof.
  simpl. revert i. induction l as [|a l IH]; intros [|i] H; simpl in *;
    try reflexivity; apply orb_false_iff in H as [Ha Hl]; auto.
Qed.

(** C3 fails as stated: the update without [close] is not dropped, the
    open subscriber is sent a push whose [close] is [null]. *)
Lemma update_without_close_is_pushed :
  on_kucoin_message (Normal update_without_close) one_client
  = Normal (mkServer [7%nat]
              {[7%nat := mkSocket OPEN [
                 JsObject [("topic", JsString "/contractMarket/limitCandle:SOLUSDTM_1min");
                           ("data", JsObject [("time", JsNumber 1700000000);
                                              ("open", JsNumber 10.5);
                                              ("close", JsNull);
                                              ("high", JsNull);
                                              ("low", JsNull)])]]]}
              None None [] 0).
Proof. vm_compute. reflexivity. Qed.

(** C3, as the server does it: a candle update whose array has no element
    at index 2, and whose elements can be converted to strings, does not
    crash the handler and is not dropped: [close], [high] and [low] are
    [NaN], and the push, where they print as [null], goes to every open
    subscriber. *)
Theorem update_without_close_is_broadcast msg kucoinCandle l S :
  is_candle_update msg = Normal true ->
  get_prop msg "data" = Normal kucoinCandle ->
  get_prop kucoinCandle "candles" = Normal (JsArray l) ->
  (length l <= 2)%nat ->
  ToString_throws (JsArray l) = false ->
  NoDup (clients S) ->
  let candle := mkCandle (parseInt_value (nth 0 l JsUndefined) / 1000)
                         (parseFloat_value (nth 1 l JsUndefined)) nan nan nan in
  let push := JSON_stringify
                (JsObject [("topic", param msg "topic"); ("data", Candle_value candle)]) in
  realTimeCandle kucoinCandle = Normal candle /\
  get_prop (JSON_stringify (Candle_value candle)) "close" = Normal JsNull /\
  exists S',
    on_kucoin_message (Normal msg) S = Normal S' /\
    same_process S S' /\
    forall c, sockets S' !! c =
              if decide (c ∈ clients S) then received push <$> sockets S !! c
              else sockets S !! c.
Proof.
  intros Hup Hdata Hcandles Hlen Hstr Hnd candle push.
  assert (Hrt : realTimeCandle kucoinCandle = Normal candle).
  { unfold realTimeCandle. rewrite Hcandles.
    cbn [mbind Completion_bind get_index].
    unfold parseInt, parseFloat. rewrite !ToString_nth by assumption.
    rewrite !(nth_beyond l) by lia. reflexivity. }
  split; [exact Hrt|]. split.
  { reflexivity. }
  destruct (broadcast_spec
              (JsObject [("topic", param msg "topic"); ("data", Candle_value candle)])
              S Hnd) as (S' & E & P & H).
  exists S'. split; [|split; assumption].
  unfold on_kucoin_message. cbn [mbind Completion_bind].
  rewrite Hup. cbn [mbind Completion_bind]. rewrite Hdata. cbn [mbind Completion_bind].
  rewrite Hrt. cbn [mbind Completion_bind].
  unfold param in E. destruct (get_prop msg "topic") eqn:Ht; [exact E|].
  destruct msg; discriminate.
Qed.

Lemma update_without_close_is_broadcast_witness :
  let candle := mkCandle (parseInt_value (JsString "1700000000000") / 1000)
                         (parseFloat_value (JsString "10.5")) nan nan nan in
  let push := JSON_stringify
                (JsObject [("topic", param update_without_close "topic");
                           ("data", Candle_value candle)]) in
  realTimeCandle (JsObject [("symbol", JsString "SOLUSDTM");
                            ("candles", JsArray [JsString "1700000000000";
                                                 JsString "10.5"])])
  = Normal candle /\
  get_prop (JSON_stringify (Candle_value candle)) "close" = Normal JsNull /\
  exists S',
    on_kucoin_message (Normal update_without_close) one_client = Normal S' /\
    same_process one_client S' /\
    forall c, sockets S' !! c =
              if decide (c ∈ clients one_client)
              then received push <$> sockets one_client !! c
              else sockets one_client !! c.
Proof.
  apply (update_without_close_is_broadcast update_without_close
           (JsObject [("symbol", JsString "SOLUSDTM");
                      ("candles", JsArray [JsString "1700000000000"; JsString "10.5"])])
           [JsString "1700000000000"; JsString "10.5"] one_client);
    try reflexivity.
  change (NoDup [7%nat]).
  apply NoDup_cons; split; [rewrite elem_of_nil; tauto|]. apply NoDup_nil; exact I.
Defined.

(** ** Replies to history requests *)

Lemma ws_send_replied clientWs sock reply S :
  sockets S !! clientWs = Some sock ->
  readyState sock = OPEN ->
  exists S', ws_send clientWs reply S = Normal S' /\ replied clientWs sock reply S S'.
Proof.
  intros Hs Ho. rewrite (ws_send_open _ _ _ _ Hs Ho). eexists. split; [reflexivity|].
  repeat split; simpl.
  - apply lookup_insert_eq.
  - intros c Hc. now apply lookup_insert_ne.
Qed.

Section Reply.

(** The requesting connection [clientWs] is open when the handler resumes
    in state [S]. *)
Variables (clientWs : nat) (sock : ClientSocket) (S : Server).
Hypothesis requester : sockets S !! clientWs = Some sock.
Hypothesis requester_open : readyState sock = OPEN.

(** C4: the newest-first response of the example comes back oldest first,
    index 0 divided by 1000 under [time], index 1 under [open], 2 under
    [close], 3 under [high] and 4 under [low]. *)
Theorem history_example axios_get :
  axios_get (JsString "SOLUSDTM") (JsString "1min")
  = Normal (kline_response (JsArray newest_first)) ->
  on_client_message clientWs (Normal (history_request "SOLUSDTM" "1min")) axios_get S
  = Normal (set_sockets
              <[clientWs := mkSocket OPEN (sent sock ++ [
                 JsObject [("topic", JsString "history_data");
                           ("data", JsArray [
                              JsObject [("time", JsNumber 1); ("open", JsNumber 8);
                                        ("close", JsNumber 9); ("high", JsNumber 9);
                                        ("low", JsNumber 7)];
                              JsObject [("time", JsNumber 2); ("open", JsNumber 10);
                                        ("close", JsNumber 12); ("high", JsNumber 13);
                                        ("low", JsNumber 9)]])]])]> S).
Proof using requester requester_open.
  intros Hget.
  rewrite history_request_reply by reflexivity.
  unfold history_reply.
  change (param (history_request "SOLUSDTM" "1min") "symbol") with (JsString "SOLUSDTM").
  change (param (history_request "SOLUSDTM" "1min") "interval") with (JsString "1min").
  rewrite Hget.
  match goal with
  | |- match ?reply with _ => _ end = _ =>
      let r := eval vm_compute in reply in change reply with r
  end.
  cbv beta iota. now apply ws_send_open.
Qed.

(** C5: when the call returns an empty array, or anything that is not an
    array, the requesting socket is sent [{topic:'history_data', data:[]}]
    and no error message. *)
Theorem empty_history_reply msg axios_get response body kucoinData :
  is_history_request msg = true ->
  template [param msg "symbol"; param msg "interval"] = Normal tt ->
  axios_get (param msg "symbol") (param msg "interval") = Normal response ->
  get_prop response "data" = Normal body ->
  get_prop body "data" = Normal kucoinData ->
  Array_isArray kucoinData = false \/ kucoinData = JsArray [] ->
  exists S',
    on_client_message clientWs (Normal msg) axios_get S = Normal S' /\
    replied clientWs sock
      (JsObject [("topic", JsString "history_data"); ("data", JsArray [])]) S S'.
Proof using requester requester_open.
  intros Hreq Htpl Hget Hbody Hdata Hempty.
  rewrite history_request_reply by assumption.
  unfold history_reply. rewrite Htpl. cbn [mbind Completion_bind].
  rewrite Hget. cbn [mbind Completion_bind].
  rewrite Hbody. cbn [mbind Completion_bind].
  rewrite Hdata. cbn [mbind Completion_bind].
  assert (E : match kucoinData with
              | JsArray ((_ :: _) as records) =>
                  candles ← finalCandles records;
                  Normal (JSON_stringify (history_data candles))
              | _ => Normal (JSON_stringify (history_data []))
              end = Normal (JsObject [("topic", JsString "history_data");
                                      ("data", JsArray [])])).
  { destruct Hempty as [Hna| ->]; [|reflexivity].
    destruct kucoinData; try discriminate; reflexivity. }
  rewrite E. now apply ws_send_replied.
Qed.

(** C7, as the server does it: when the call fails, whatever the cause,
    the requesting socket is sent [{topic:'error', message:'Failed to fetch
    history.'}]; no other socket is sent anything, the set of subscribers
    and the rest of the state are unchanged, and the handler completes
    normally. *)
Theorem failed_history_reply msg axios_get e :
  is_history_request msg = true ->
  axios_get (param msg "symbol") (param msg "interval") = Throw e ->
  exists S',
    on_client_message clientWs (Normal msg) axios_get S = Normal S' /\
    replied clientWs sock
      (JsObject [("topic", JsString "error");
                 ("message", JsString "Failed to fetch history.")]) S S'.
Proof using requester requester_open.
  intros Hreq Hget.
  rewrite history_request_reply by assumption.
  assert (E : exists e', history_reply msg axios_get = Throw e').
  { unfold history_reply.
    destruct (template _); cbn [mbind Completion_bind]; [|eauto].
    rewrite Hget. eauto. }
  destruct E as [e' ->].
  change (JSON_stringify history_error)
    with (JsObject [("topic", JsString "error");
                    ("message", JsString "Failed to fetch history.")]).
  now apply ws_send_replied.
Qed.

End Reply.

Lemma history_example_witness :
  on_client_message 7 (Normal (history_request "SOLUSDTM" "1min"))
    (fun _ _ => Normal (kline_response (JsArray newest_first))) one_client
  = Normal (set_sockets
              <[7%nat := mkSocket OPEN ([] ++ [
                 JsObject [("topic", JsString "history_data");
                           ("data", JsArray [
                              JsObject [("time", JsNumber 1); ("open", JsNumber 8);
                                        ("close", JsNumber 9); ("high", JsNumber 9);
                                        ("low", JsNumber 7)];
                              JsObject [("time", JsNumber 2); ("open", JsNumber 10);
                                        ("close", JsNumber 12); ("high", JsNumber 13);
                                        ("low", JsNumber 9)]])]])]> one_client).
Proof. apply (history_example 7 (mkSocket OPEN []) one_client); reflexivity. Defined.

Lemma empty_history_reply_witness :
  exists S',
    on_client_message 7 (Normal (history_request "SOLUSDTM" "1min"))
      (fun _ _ => Normal no_data_response) one_client = Normal S' /\
    replied 7 (mkSocket OPEN [])
      (JsObject [("topic", JsString "history_data"); ("data", JsArray [])])
      one_client S'.
Proof.
  apply (empty_history_reply 7 (mkSocket OPEN []) one_client eq_refl eq_refl
           (history_request "SOLUSDTM" "1min")
           (fun _ _ => Normal no_data_response) no_data_response
           (JsObject [("code", JsString "400100"); ("msg", JsString "Invalid symbol")])
           JsUndefined);
    try reflexivity.
  left. reflexivity.
Defined.

Lemma failed_history_reply_witness :
  exists S',
    on_client_message 1 (Normal (history_request "SOLUSDTM" "1min"))
      (fun _ _ => Throw (Error "connect ECONNREFUSED 127.0.0.1:443")) three_clients
    = Normal S' /\
    replied 1 (mkSocket OPEN [])
      (JsObject [("topic", JsString "error");
                 ("message", JsString "Failed to fetch history.")])
      three_clients S'.
Proof.
  apply (failed_history_reply 1 (mkSocket OPEN []) three_clients eq_refl eq_refl
           (history_request "SOLUSDTM" "1min")
           (fun _ _ => Throw (Error "connect ECONNREFUSED 127.0.0.1:443"))
           (Error "connect ECONNREFUSED 127.0.0.1:443"));
    reflexivity.
Defined.

(** C7 fails as stated: the message sent is a fixed text and says nothing
    of the cause the request failed with. *)
Lemma failure_cause_is_not_sent :
  on_client_message 7 (Normal (history_request "SOLUSDTM" "1min"))
    (fun _ _ => Throw (Error "connect ECONNREFUSED 127.0.0.1:443")) one_client
  = Normal (mkServer [7%nat]
              {[7%nat := mkSocket OPEN [
                 JsObject [("topic", JsString "error");
                           ("message", JsString "Failed to fetch history.")]]]}
              None None [] 0) /\
  String_includes "Failed to fetch history." "connect ECONNREFUSED 127.0.0.1:443"
  = false.
Proof. split; vm_compute; reflexivity. Qed.

(** ** Reconnection *)


(** ** The set of subscribers *)

Lemma on_connection_NoDup clientWs S :
  NoDup (clients S) -> NoDup (clients (on_connection clientWs S)).
Proof.
  intros Hnd. unfold on_connection. simpl.
  destruct (decide (clientWs ∈ clients S)) as [Hin|Hout]; [assumption|].
  apply NoDup_app. repeat split; [assumption| |].
  - intros x Hx Hx'. apply elem_of_cons in Hx' as [->|Hx']; [contradiction|].
    now apply elem_of_nil in Hx'.
  - apply NoDup_cons. split; [apply not_elem_of_nil|apply NoDup_nil; exact I].
Qed.

Lemma on_client_close_NoDup clientWs S :
  NoDup (clients S) -> NoDup (clients (on_client_close clientWs S)).
Proof. intros Hnd. unfold on_client_close. simpl. now apply NoDup_filter. Qed.

Lemma on_client_close_removes clientWs S :
  clientWs ∉ clients (on_client_close clientWs S).
Proof.
  unfold on_client_close. simpl. intros Hin.
  apply list_elem_of_filter in Hin as [Hne _]. now apply Hne.
Qed.

(** A publish completes normally whatever the state of the subscribers: it
    adds the message to what every open subscriber of the set was sent and
    changes nothing else. *)
Theorem broadcast_reaches_open_subscribers data S :
  NoDup (clients S) ->
  exists S',
    broadcast data S = Normal S' /\
    same_process S S' /\
    (forall c sock, c ∈ clients S -> sockets S !! c = Some sock ->
       sockets S' !! c = Some (received (JSON_stringify data) sock)) /\
    (forall c, c ∉ clients S -> sockets S' !! c = sockets S !! c).
Proof.
  intros Hnd. destruct (broadcast_spec data S Hnd) as (S' & E & P & H).
  exists S'. repeat split; try assumption; try apply P.
  - intros c sock Hin Hs. rewrite H, decide_True, Hs by assumption. reflexivity.
  - intros c Hout. rewrite H, decide_False by assumption. reflexivity.
Qed.

Lemma three_clients_NoDup : NoDup (clients three_clients).
Proof.
  change (NoDup [1; 2; 3]%nat).
  repeat (apply NoDup_cons; split; [rewrite ?elem_of_cons, elem_of_nil; lia|]).
  apply NoDup_nil; exact I.
Defined.

Lemma broadcast_reaches_open_subscribers_witness :
  exists S',
    broadcast live_update three_clients = Normal S' /\
    same_process three_clients S' /\
    (forall c sock, c ∈ clients three_clients -> sockets three_clients !! c = Some sock ->
       sockets S' !! c = Some (received (JSON_stringify live_update) sock)) /\
    (forall c, c ∉ clients three_clients -> sockets S' !! c = sockets three_clients !! c).
Proof.
  apply (broadcast_reaches_open_subscribers live_update three_clients).
  exact three_clients_NoDup.
Defined.

(** Once a connection has closed and left the set, a publish sends it
    nothing. *)
Theorem closed_client_is_not_sent clientWs data S :
  NoDup (clients S) ->
  exists S',
    broadcast data (on_client_close clientWs S) = Normal S' /\
    sockets S' !! clientWs = sockets S !! clientWs.
Proof.
  intros Hnd.
  destruct (broadcast_spec data (on_client_close clientWs S)) as (S' & E & _ & H).
  { now apply on_client_close_NoDup. }
  exists S'. split; [exact E|].
  rewrite H, decide_False by apply on_client_close_removes. reflexivity.
Qed.

Lemma closed_client_is_not_sent_witness :
  exists S',
    broadcast live_update (on_client_close 1 three_clients) = Normal S' /\
    sockets S' !! 1%nat = sockets three_clients !! 1%nat.
Proof.
  apply (closed_client_is_not_sent 1 live_update three_clients).
  exact three_clients_NoDup.
Defined.

(** ** Messages that are not history requests *)

(** Every message but [null] that is not a history request is ignored: the
    state is unchanged, nothing is sent and nothing is thrown. *)
Theorem other_message_is_ignored clientWs msg axios_get S :
  msg <> JsNull -> msg <> JsUndefined ->
  is_history_request msg = false ->
  on_client_message clientWs (Normal msg) axios_get S = Normal S.
Proof.
  intros Hn Hu. unfold is_history_request, on_client_message.
  destruct msg; try congruence; cbn [get_prop mbind Completion_bind];
    try reflexivity.
  now intros ->.
Qed.

Lemma other_message_is_ignored_witness :
  on_client_message 7 (Normal (JsObject [("topic", JsString "ping")]))
    (fun _ _ => Throw (Error "unused")) one_client
  = Normal one_client.
Proof.
  apply (other_message_is_ignored 7 (JsObject [("topic", JsString "ping")]));
    [discriminate|discriminate|reflexivity].
Defined.

(** C9 at the message [null], which parses as JSON and is not a history
    request: reading its [topic] throws, and the handler's promise is
    rejected instead of the message being ignored. *)
Theorem null_message_is_not_ignored clientWs axios_get S :
  on_client_message clientWs (Normal JsNull) axios_get S
  = Throw (TypeError "Cannot read properties of null (reading 'topic')").
Proof. reflexivity. Qed.

End Properties.

(* ===================================================================== *)
(** * Further properties: handlers, event loop, front end                 *)
(* ===================================================================== *)

Module Extras.
Import JS Relay Vocabulary Samples Upstream Client Invariant Scenario Properties.

(** ** What a handler can change *)

Lemma ws_send_cases ws message S S' :
  ws_send ws message S = Normal S' ->
  S' = S \/
  exists sock, sockets S !! ws = Some sock /\ readyState sock = OPEN /\
    S' = set_sockets <[ws := mkSocket OPEN (sent sock ++ [message])]> S.
Proof.
  unfold ws_send. destruct (sockets S !! ws) as [sock|] eqn:Hs.
  - destruct (readyState sock) eqn:Hr; intros [= <-]; eauto.
  - intros [= <-]. now left.
Qed.

Lemma same_states_refl S : same_states S S.
Proof. now intros c. Qed.

Lemma same_states_insert S ws sock sent' :
  sockets S !! ws = Some sock ->
  same_states S (set_sockets <[ws := mkSocket (readyState sock) sent']> S).
Proof.
  intros Hs c. simpl. destruct (decide (c = ws)) as [->|Hne].
  - now rewrite lookup_insert_eq, Hs.
  - now rewrite lookup_insert_ne.
Qed.

Lemma ws_send_same ws message S S' :
  ws_send ws message S = Normal S' -> same_process S S' /\ same_states S S'.
Proof.
  intros H. destruct (ws_send_cases _ _ _ _ H) as [->|(sock & Hs & Ho & ->)].
  - split; [apply same_process_refl|apply same_states_refl].
  - split; [apply same_process_set_sockets|].
    rewrite <- Ho. now apply same_states_insert.
Qed.

Lemma received_state message sock :
  readyState (received message sock) = readyState sock.
Proof. unfold received. now destruct (decide _) as [->|]. Qed.

Lemma broadcast_same data S S' :
  NoDup (clients S) ->
  broadcast data S = Normal S' -> same_process S S' /\ same_states S S'.
Proof.
  intros Hnd E. destruct (broadcast_spec data S Hnd) as (S1 & E1 & P & H).
  rewrite E in E1. injection E1 as <-. split; [exact P|].
  intros c. rewrite H. destruct (decide _); [|reflexivity].
  destruct (sockets S !! c); simpl; [|reflexivity]. now rewrite received_state.
Qed.

(** The message handler of the upstream socket either throws or leaves
    everything but the outboxes as it was. *)
Lemma on_kucoin_message_same parsed S S' :
  NoDup (clients S) ->
  on_kucoin_message parsed S = Normal S' -> same_process S S' /\ same_states S S'.
Proof.
  intros Hnd. unfold on_kucoin_message, mbind, Completion_bind.
  repeat match goal with
         | |- context [match ?c with Normal _ => _ | Throw _ => _ end] =>
             lazymatch c with
             | broadcast _ _ => fail
             | _ => destruct c; [|discriminate]
             end
         | |- context [if ?b then _ else _] => destruct b
         end.
  - now apply broadcast_same.
  - intros [= <-]. split; [apply same_process_refl|apply same_states_refl].
Qed.

Lemma on_client_message_same clientWs parsed axios_get S S' :
  on_client_message clientWs parsed axios_get S = Normal S' ->
  same_process S S' /\ same_states S S'.
Proof.
  destruct parsed as [msg|]; [|discriminate].
  destruct (is_history_request msg) eqn:Hreq.
  - rewrite history_request_reply by assumption.
    destruct (history_reply msg axios_get); apply ws_send_same.
  - unfold is_history_request in Hreq. unfold on_client_message.
    cbn [mbind Completion_bind]. destruct (get_prop msg "topic"); [|discriminate].
    cbn [mbind Completion_bind]. rewrite Hreq. intros [= <-].
    split; [apply same_process_refl|apply same_states_refl].
Qed.

(** ** [connectToKuCoin] *)

Lemma connectToKuCoin_cases bootstrap construct S :
  connectToKuCoin bootstrap construct S =
  match endpoint_and_token bootstrap with
  | Throw _ => Normal (setTimeout ConnectToKuCoin 10000 S)
  | Normal url =>
      _ ← construct;
      Normal (mkServer (clients S) (sockets S) (Some (opened S)) (Some url)
                       (timers S) (Datatypes.S (opened S)))
  end.
Proof. reflexivity. Qed.

Lemma connectToKuCoin_inv bootstrap construct S S' :
  connectToKuCoin bootstrap construct S = Normal S' ->
  (S' = setTimeout ConnectToKuCoin 10000 S /\
   exists e, endpoint_and_token bootstrap = Throw e) \/
  (exists url, endpoint_and_token bootstrap = Normal url /\ construct = Normal tt /\
     S' = mkServer (clients S) (sockets S) (Some (opened S)) (Some url)
                   (timers S) (Datatypes.S (opened S))).
Proof.
  rewrite connectToKuCoin_cases.
  destruct (endpoint_and_token bootstrap) as [url|e].
  - destruct construct as [[]|]; [|discriminate]. intros [= <-]. right. eauto.
  - intros [= <-]. left. eauto.
Qed.

(** ** Sockets in the event loop *)

Lemma is_state_spec heap id st :
  is_state heap id st = true <->
  exists sock, heap !! id = Some sock /\ readyState sock = st.
Proof.
  unfold is_state, state_of. rewrite bool_decide_eq_true.
  destruct (heap !! id) as [sock|]; simpl; split.
  - intros [= <-]. eauto.
  - intros (sock' & [= <-] & <-). reflexivity.
  - discriminate.
  - intros (sock' & [=] & _).
Qed.

Lemma not_closed_spec heap id :
  not_closed heap id = true <->
  exists sock, heap !! id = Some sock /\ readyState sock <> CLOSED.
Proof.
  unfold not_closed, state_of.
  destruct (heap !! id) as [sock|]; simpl; split.
  - destruct (readyState sock) eqn:Hr; try discriminate;
      intros _; exists sock; (split; [reflexivity|congruence]).
  - intros (sock' & [= <-] & Hn). destruct (readyState sock); congruence.
  - discriminate.
  - intros (sock' & [=] & _).
Qed.

(** A socket that has not closed is the one [kucoinWs] names, and then no
    retry is on its way. *)
Lemma live_is_kucoinWs Σ id sock :
  single_upstream Σ ->
  upstream Σ !! id = Some sock ->
  readyState sock <> CLOSED ->
  kucoinWs (server Σ) = Some id /\ timers (server Σ) = [] /\ awaiting Σ = 0%nat.
Proof.
  intros [_ H] Hs Hn. destruct (kucoinWs (server Σ)) as [id'|].
  - destruct H as (_ & Hothers & Ht & Ha).
    destruct (decide (id = id')) as [->|Hne]; [auto|].
    now specialize (Hothers id sock Hne Hs).
  - destruct H as [Hall _]. now specialize (Hall id sock Hs).
Qed.

Lemma same_process_connection S S' : same_process S S' -> same_connection S S'.
Proof. intros (_ & Hk & _ & Ht & Ho). now repeat split. Qed.

Lemma single_upstream_frame Σ Σ' :
  single_upstream Σ ->
  upstream Σ' = upstream Σ ->
  awaiting Σ' = awaiting Σ ->
  same_connection (server Σ) (server Σ') ->
  single_upstream Σ'.
Proof.
  intros H Hu Ha (Hk & Ht & Ho). unfold single_upstream in *.
  now rewrite Hu, Ha, Hk, Ht, Ho.
Qed.

Lemma single_upstream_live Σ Σ' id sock' :
  single_upstream Σ ->
  kucoinWs (server Σ) = Some id ->
  upstream Σ' !! id = Some sock' ->
  readyState sock' <> CLOSED ->
  (forall j, j <> id -> upstream Σ' !! j = upstream Σ !! j) ->
  is_Some (upstream Σ !! id) ->
  awaiting Σ' = awaiting Σ ->
  same_connection (server Σ) (server Σ') ->
  single_upstream Σ'.
Proof.
  intros [Hfresh H] Hk Hs Hn Hothers Hold Ha (Hk' & Ht & Ho).
  unfold single_upstream. rewrite Hk', Ht, Ho, Ha, Hk. rewrite Hk in H.
  destruct H as (_ & Hclosed & Htimers & Hawait). split.
  - intros j Hj. destruct (decide (j = id)) as [->|Hne].
    + rewrite (Hfresh id Hj) in Hold. now destruct Hold.
    + rewrite Hothers by assumption. now apply Hfresh.
  - repeat split; try assumption.
    + eauto.
    + intros j sock Hne. rewrite Hothers by assumption. now apply Hclosed.
Qed.

(** What the handlers of the upstream socket do to the socket that
    [kucoinWs] names. *)
Lemma on_kucoin_open_inv now id Σ sock Σ' :
  kucoinWs (server Σ) = Some id ->
  upstream Σ !! id = Some sock ->
  on_kucoin_open now (set_upstream (alter (set_state OPEN) id) Σ) = Normal Σ' ->
  Σ' = mkSystem (server Σ)
         (<[id := mkSocket OPEN (sent sock ++ [JSON_stringify (subscription now)])]>
            (alter (set_state OPEN) id (upstream Σ)))
         (awaiting Σ) (S (intervals Σ)).
Proof.
  intros Hk Hs. unfold on_kucoin_open, upstream_send. simpl. rewrite Hk.
  rewrite lookup_alter_eq, Hs. simpl. now intros [= <-].
Qed.

Lemma on_interval_inv now Σ Σ' :
  on_interval now Σ = Normal Σ' ->
  Σ' = Σ \/
  exists id sock,
    kucoinWs (server Σ) = Some id /\ upstream Σ !! id = Some sock /\
    readyState sock = OPEN /\
    Σ' = set_upstream <[id := mkSocket OPEN (sent sock ++ [JSON_stringify (ping now)])]> Σ.
Proof.
  unfold on_interval, upstream_send.
  destruct (kucoinWs (server Σ)) as [id|]; [|intros [= <-]; now left].
  destruct (upstream Σ !! id) as [sock|] eqn:Hs; [|intros [= <-]; now left].
  destruct (decide (readyState sock = OPEN)) as [Ho|]; [|intros [= <-]; now left].
  rewrite Ho. intros [= <-]. right. exists id, sock. auto.
Qed.

Lemma single_upstream_step Σ ev Σ' :
  invariant Σ -> enabled ev Σ = true -> dispatch ev Σ = Normal Σ' ->
  single_upstream Σ'.
Proof.
  intros (Hsu & (Hnd & _) & _ & _) Hen Hd.
  destruct ev as [i|bootstrap construct|id now|id parsed|id|id code reason|k now
                 |clientWs|clientWs parsed axios_get|clientWs|clientWs];
    simpl in Hen, Hd.
  - (* a timer fires *)
    injection Hd as <-. apply bool_decide_eq_true in Hen.
    destruct Hsu as [Hfresh H]. split; [exact Hfresh|]. simpl.
    destruct (kucoinWs (server Σ)).
    + destruct H as (_ & _ & Ht & _). rewrite Ht in Hen. simpl in Hen. lia.
    + destruct H as [Hall Hlen]. split; [exact Hall|].
      rewrite length_delete by now apply lookup_lt_is_Some_2. lia.
  - (* the bootstrap request settles *)
    apply bool_decide_eq_true in Hen. unfold on_bootstrap in Hd.
    destruct (connectToKuCoin bootstrap construct (server Σ)) as [S'|] eqn:E;
      [|discriminate].
    cbn [mbind Completion_bind] in Hd. injection Hd as <-.
    destruct Hsu as [Hfresh H].
    destruct (kucoinWs (server Σ)) eqn:Hk; [destruct H as (_ & _ & _ & Ha); lia|].
    destruct H as [Hall Hlen].
    destruct (connectToKuCoin_inv _ _ _ _ E) as [[-> _]|(url & _ & _ & ->)].
    + split; simpl.
      * rewrite decide_True by reflexivity. exact Hfresh.
      * rewrite Hk, decide_True by reflexivity. split; [exact Hall|].
        rewrite length_app. simpl. lia.
    + split; simpl.
      * rewrite decide_False by lia. intros j Hj.
        rewrite lookup_insert_ne by lia. apply Hfresh. lia.
      * rewrite decide_False by lia. repeat split.
        -- exists (mkSocket CONNECTING []). now rewrite lookup_insert_eq.
        -- intros j sock Hne. rewrite lookup_insert_ne by congruence. apply Hall.
        -- destruct (timers (server Σ)); [reflexivity|simpl in Hlen; lia].
        -- lia.
  - (* the upstream socket opens *)
    apply is_state_spec in Hen as (sock & Hs & Hc).
    destruct (live_is_kucoinWs Σ id sock Hsu Hs) as (Hk & _); [congruence|].
    rewrite (on_kucoin_open_inv _ _ _ _ _ Hk Hs Hd).
    apply (single_upstream_live Σ _ id
             (mkSocket OPEN (sent sock ++ [JSON_stringify (subscription now)])));
      simpl; try easy.
    + apply lookup_insert_eq.
    + intros j Hne. rewrite lookup_insert_ne, lookup_alter_ne by congruence. reflexivity.
  - (* a message from the exchange *)
    unfold lift in Hd.
    destruct (on_kucoin_message parsed (server Σ)) as [S'|] eqn:E; [|discriminate].
    cbn [mbind Completion_bind] in Hd. injection Hd as <-.
    apply (single_upstream_frame Σ); [exact Hsu|reflexivity|reflexivity|].
    eapply same_process_connection, proj1, on_kucoin_message_same; eassumption.
  - (* the upstream socket reports an error *)
    apply not_closed_spec in Hen as (sock & Hs & Hn).
    destruct (live_is_kucoinWs Σ id sock Hsu Hs Hn) as (Hk & _).
    unfold on_kucoin_error in Hd. simpl in Hd. rewrite Hk in Hd. injection Hd as <-.
    apply (single_upstream_live Σ _ id (mkSocket CLOSING (sent sock)));
      simpl; try easy.
    + rewrite !lookup_alter_eq, Hs. reflexivity.
    + intros j Hne. rewrite !lookup_alter_ne by congruence. reflexivity.
  - (* the upstream socket closes *)
    apply not_closed_spec in Hen as (sock & Hs & Hn).
    destruct (live_is_kucoinWs Σ id sock Hsu Hs Hn) as (Hk & Ht & Ha).
    injection Hd as <-. destruct Hsu as [Hfresh H]. rewrite Hk in H.
    destruct H as (_ & Hothers & _ & _). split; simpl.
    + intros j Hj. destruct (decide (j = id)) as [->|Hne].
      * rewrite (Hfresh id Hj) in Hs. discriminate.
      * rewrite lookup_alter_ne by congruence. now apply Hfresh.
    + split.
      * intros j sock'. destruct (decide (j = id)) as [->|Hne].
        -- rewrite lookup_alter_eq, Hs. now intros [= <-].
        -- rewrite lookup_alter_ne by congruence. now apply Hothers.
      * rewrite Ht, Ha. reflexivity.
  - (* a keep-alive interval fires *)
    destruct (on_interval_inv _ _ _ Hd) as [->|(id & sock & Hk & Hs & Ho & ->)];
      [exact Hsu|].
    apply (single_upstream_live Σ _ id
             (mkSocket OPEN (sent sock ++ [JSON_stringify (ping now)])));
      simpl; try easy.
    + apply lookup_insert_eq.
    + intros j Hne. now rewrite lookup_insert_ne by congruence.
  - (* a front end connects *)
    injection Hd as <-.
    apply (single_upstream_frame Σ); [exact Hsu|reflexivity|reflexivity|].
    now repeat split.
  - (* the message handler of a front end resumes *)
    unfold lift in Hd.
    destruct (on_client_message clientWs parsed axios_get (server Σ)) as [S'|] eqn:E;
      [|discriminate].
    cbn [mbind Completion_bind] in Hd. injection Hd as <-.
    apply (single_upstream_frame Σ); [exact Hsu|reflexivity|reflexivity|].
    eapply same_process_connection, proj1, on_client_message_same; eassumption.
  - (* a front end starts closing *)
    injection Hd as <-.
    apply (single_upstream_frame Σ); [exact Hsu|reflexivity|reflexivity|].
    now repeat split.
  - (* a front end has closed *)
    injection Hd as <-.
    apply (single_upstream_frame Σ); [exact Hsu|reflexivity|reflexivity|].
    now repeat split.
Qed.

(** ** The set of subscribers in the event loop *)

Lemma registry_ok_ext S S' :
  clients S' = clients S -> sockets S' = sockets S ->
  registry_ok S -> registry_ok S'.
Proof. unfold registry_ok. now intros -> ->. Qed.

Lemma same_states_lookup S S' c sock' :
  same_states S S' -> sockets S' !! c = Some sock' ->
  exists sock, sockets S !! c = Some sock /\ readyState sock = readyState sock'.
Proof.
  intros H Hs. specialize (H c). rewrite Hs in H. simpl in H.
  destruct (sockets S !! c) as [sock|]; [|discriminate].
  injection H as H. eauto.
Qed.

Lemma same_states_sym S S' : same_states S S' -> same_states S' S.
Proof. intros H c. now rewrite H. Qed.

Lemma registry_ok_same S S' :
  same_process S S' -> same_states S S' -> registry_ok S -> registry_ok S'.
Proof.
  intros (Hc & _) Hst (Hnd & Hin & Hreg & Hconn). unfold registry_ok. rewrite Hc.
  split; [exact Hnd|]. repeat split.
  - intros c Hc'. destruct (Hin c Hc') as (sock & Hs & Hn).
    destruct (same_states_lookup S' S c sock (same_states_sym _ _ Hst) Hs)
      as (sock' & Hs' & Hr).
    exists sock'. split; [exact Hs'|congruence].
  - intros c sock' Hs' Hn.
    destruct (same_states_lookup S S' c sock' Hst Hs') as (sock & Hs & Hr).
    apply (Hreg c sock Hs). congruence.
  - intros c sock' Hs'.
    destruct (same_states_lookup S S' c sock' Hst Hs') as (sock & Hs & Hr).
    rewrite <- Hr. now apply (Hconn c sock).
Qed.

Lemma registry_ok_step Σ ev Σ' :
  invariant Σ -> enabled ev Σ = true -> dispatch ev Σ = Normal Σ' ->
  registry_ok (server Σ').
Proof.
  intros (_ & Hreg & _ & _) Hen Hd.
  destruct ev as [i|bootstrap construct|id now|id parsed|id|id code reason|k now
                 |clientWs|clientWs parsed axios_get|clientWs|clientWs];
    simpl in Hen, Hd.
  - injection Hd as <-. now apply (registry_ok_ext (server Σ)).
  - unfold on_bootstrap in Hd.
    destruct (connectToKuCoin bootstrap construct (server Σ)) as [S'|] eqn:E;
      [|discriminate].
    cbn [mbind Completion_bind] in Hd. injection Hd as <-.
    destruct (connectToKuCoin_inv _ _ _ _ E) as [[-> _]|(url & _ & _ & ->)];
      now apply (registry_ok_ext (server Σ)).
  - unfold on_kucoin_open in Hd. simpl in Hd.
    destruct (kucoinWs (server Σ)); [|discriminate].
    unfold upstream_send in Hd. simpl in Hd.
    destruct (alter (set_state OPEN) id (upstream Σ) !! n) as [sock|];
      [destruct (readyState sock)|]; try discriminate;
      injection Hd as <-; exact Hreg.
  - unfold lift in Hd.
    destruct (on_kucoin_message parsed (server Σ)) as [S'|] eqn:E; [|discriminate].
    cbn [mbind Completion_bind] in Hd. injection Hd as <-. simpl.
    destruct (on_kucoin_message_same parsed _ _ (proj1 Hreg) E).
    now apply (registry_ok_same (server Σ)).
  - unfold on_kucoin_error in Hd. simpl in Hd.
    destruct (kucoinWs (server Σ)); [|discriminate]. injection Hd as <-. exact Hreg.
  - injection Hd as <-. now apply (registry_ok_ext (server Σ)).
  - destruct (on_interval_inv _ _ _ Hd) as [->|(id & sock & _ & _ & _ & ->)];
      exact Hreg.
  - (* a front end connects *)
    injection Hd as <-. apply bool_decide_eq_true in Hen.
    destruct Hreg as (Hnd & Hin & Hall & Hconn).
    assert (Hnew : clientWs ∉ clients (server Σ)).
    { intros Hc. destruct (Hin _ Hc) as (sock & Hs & _). congruence. }
    unfold registry_ok, on_connection. simpl. rewrite decide_False by assumption.
    repeat split.
    + apply NoDup_app. repeat split; [assumption| |].
      * intros x Hx Hx'. apply elem_of_cons in Hx' as [->|Hx']; [contradiction|].
        now apply elem_of_nil in Hx'.
      * apply NoDup_cons. split; [apply not_elem_of_nil|apply NoDup_nil; exact I].
    + intros c Hc. apply elem_of_app in Hc as [Hc|Hc].
      * destruct (Hin c Hc) as (sock & Hs & Hn). exists sock.
        rewrite lookup_insert_ne by congruence. auto.
      * apply elem_of_cons in Hc as [->|Hc]; [|now apply elem_of_nil in Hc].
        exists (mkSocket OPEN []). now rewrite lookup_insert_eq.
    + intros c sock. destruct (decide (c = clientWs)) as [->|Hne].
      * intros _ _. apply elem_of_app. right. apply elem_of_cons. now left.
      * rewrite lookup_insert_ne by congruence. intros Hs Hn.
        apply elem_of_app. left. now apply (Hall c sock).
    + intros c sock. destruct (decide (c = clientWs)) as [->|Hne].
      * rewrite lookup_insert_eq. now intros [= <-].
      * rewrite lookup_insert_ne by congruence. apply Hconn.
  - unfold lift in Hd.
    destruct (on_client_message clientWs parsed axios_get (server Σ)) as [S'|] eqn:E;
      [|discriminate].
    cbn [mbind Completion_bind] in Hd. injection Hd as <-. simpl.
    destruct (on_client_message_same _ _ _ _ _ E).
    now apply (registry_ok_same (server Σ)).
  - (* a front end starts closing *)
    injection Hd as <-. apply is_state_spec in Hen as (sock0 & Hs0 & Ho).
    destruct Hreg as (Hnd & Hin & Hall & Hconn).
    unfold registry_ok. simpl. split; [exact Hnd|]. repeat split.
    + intros c Hc. destruct (Hin c Hc) as (sock & Hs & Hn).
      destruct (decide (c = clientWs)) as [->|Hne].
      * rewrite lookup_alter_eq, Hs. simpl. eexists. split; [reflexivity|easy].
      * rewrite lookup_alter_ne by congruence. eauto.
    + intros c sock. destruct (decide (c = clientWs)) as [->|Hne].
      * intros _ _. now apply (Hall clientWs sock0); [|congruence].
      * rewrite lookup_alter_ne by congruence. apply Hall.
    + intros c sock. destruct (decide (c = clientWs)) as [->|Hne].
      * rewrite lookup_alter_eq, Hs0. now intros [= <-].
      * rewrite lookup_alter_ne by congruence. apply Hconn.
  - (* a front end has closed *)
    injection Hd as <-. apply not_closed_spec in Hen as (sock0 & Hs0 & Hn0).
    destruct Hreg as (Hnd & Hin & Hall & Hconn).
    unfold registry_ok, on_client_close. simpl. repeat split.
    + now apply NoDup_filter.
    + intros c Hc. apply list_elem_of_filter in Hc as [Hne Hc].
      destruct (Hin c Hc) as (sock & Hs & Hn).
      rewrite lookup_alter_ne by congruence. eauto.
    + intros c sock. destruct (decide (c = clientWs)) as [->|Hne].
      * rewrite lookup_alter_eq, Hs0. now intros [= <-].
      * rewrite lookup_alter_ne by congruence. intros Hs Hn.
        apply list_elem_of_filter. split; [exact Hne|]. now apply (Hall c sock).
    + intros c sock. destruct (decide (c = clientWs)) as [->|Hne].
      * rewrite lookup_alter_eq, Hs0. now intros [= <-].
      * rewrite lookup_alter_ne by congruence. apply Hconn.
Qed.

(** ** What is said to the exchange *)

Lemma protocol_ok_frame Σ Σ' :
  upstream Σ' = upstream Σ -> protocol_ok Σ -> protocol_ok Σ'.
Proof. unfold protocol_ok. now intros ->. Qed.

(** A change of state that leaves a socket neither connecting nor open. *)
Lemma protocol_ok_state Σ id f :
  (forall sock, sent (f sock) = sent sock /\
                readyState (f sock) <> CONNECTING /\ readyState (f sock) <> OPEN) ->
  protocol_ok Σ -> protocol_ok (set_upstream (alter f id) Σ).
Proof.
  intros Hf H j sock'. simpl. destruct (decide (j = id)) as [->|Hne].
  - rewrite lookup_alter_eq. destruct (upstream Σ !! id) as [sock|] eqn:Hs;
      [|discriminate].
    intros [= <-]. destruct (Hf sock) as (Hsent & Hc & Ho).
    destruct (H id sock Hs) as (_ & _ & Hrest). rewrite Hsent. easy.
  - rewrite lookup_alter_ne by congruence. apply H.
Qed.

Lemma protocol_ok_step Σ ev Σ' :
  invariant Σ -> enabled ev Σ = true -> dispatch ev Σ = Normal Σ' ->
  protocol_ok Σ'.
Proof.
  intros (Hsu & _ & Hp & _) Hen Hd.
  destruct ev as [i|bootstrap construct|id now|id parsed|id|id code reason|k now
                 |clientWs|clientWs parsed axios_get|clientWs|clientWs];
    simpl in Hen, Hd.
  - injection Hd as <-. now apply (protocol_ok_frame Σ).
  - unfold on_bootstrap in Hd.
    destruct (connectToKuCoin bootstrap construct (server Σ)) as [S'|] eqn:E;
      [|discriminate].
    cbn [mbind Completion_bind] in Hd. injection Hd as <-.
    destruct (decide (opened S' = opened (server Σ))); [exact Hp|].
    intros j sock. simpl. destruct (decide (j = opened (server Σ))) as [->|Hne].
    + rewrite lookup_insert_eq. intros [= <-]. simpl. easy.
    + rewrite lookup_insert_ne by congruence. apply Hp.
  - (* the upstream socket opens *)
    apply is_state_spec in Hen as (sock & Hs & Hc).
    destruct (live_is_kucoinWs Σ id sock Hsu Hs) as (Hk & _); [congruence|].
    rewrite (on_kucoin_open_inv _ _ _ _ _ Hk Hs Hd).
    destruct (Hp id sock Hs) as (Hempty & _). rewrite (Hempty Hc).
    intros j sock'. simpl. destruct (decide (j = id)) as [->|Hne].
    + rewrite lookup_insert_eq. intros [= <-]. simpl. repeat split; try easy.
      * injection H as <- _. now exists now.
      * injection H as _ <-. constructor.
    + rewrite lookup_insert_ne, lookup_alter_ne by congruence. apply Hp.
  - unfold lift in Hd.
    destruct (on_kucoin_message parsed (server Σ)) as [S'|]; [|discriminate].
    cbn [mbind Completion_bind] in Hd. injection Hd as <-. exact Hp.
  - (* the upstream socket reports an error *)
    unfold on_kucoin_error in Hd. simpl in Hd.
    destruct (kucoinWs (server Σ)) as [id'|]; [|discriminate]. injection Hd as <-.
    apply (protocol_ok_state (set_upstream (alter (set_state CLOSING) id) Σ) id' ws_close).
    + intros sock. unfold ws_close. destruct (readyState sock) eqn:Hr; simpl;
        rewrite ?Hr; easy.
    + now apply protocol_ok_state.
  - injection Hd as <-.
    apply (protocol_ok_frame (set_upstream (alter (set_state CLOSED) id) Σ));
      [reflexivity|].
    now apply protocol_ok_state.
  - (* a keep-alive interval fires *)
    destruct (on_interval_inv _ _ _ Hd) as [->|(id & sock & Hk & Hs & Ho & ->)];
      [exact Hp|].
    destruct (Hp id sock Hs) as (_ & Hne & Hrest).
    intros j sock'. simpl. destruct (decide (j = id)) as [->|Hne'].
    + rewrite lookup_insert_eq. intros [= <-]. simpl.
      destruct (sent sock) as [|m rest] eqn:Hsent; [now specialize (Hne Ho)|].
      repeat split; try easy.
      * injection H as <- _. now apply (Hrest m rest).
      * injection H as _ <-. apply Forall_app. split; [now apply (Hrest m rest)|].
        constructor; [now exists now|constructor].
    + rewrite lookup_insert_ne by congruence. apply Hp.
  - injection Hd as <-. exact Hp.
  - unfold lift in Hd.
    destruct (on_client_message clientWs parsed axios_get (server Σ)) as [S'|];
      [|discriminate].
    cbn [mbind Completion_bind] in Hd. injection Hd as <-. exact Hp.
  - injection Hd as <-. exact Hp.
  - injection Hd as <-. exact Hp.
Qed.

Lemma timers_ok_same S S' : same_process S S' -> timers_ok S -> timers_ok S'.
Proof. intros (_ & _ & _ & Ht & _). unfold timers_ok. now rewrite Ht. Qed.

Lemma timers_ok_step Σ ev Σ' :
  invariant Σ -> enabled ev Σ = true -> dispatch ev Σ = Normal Σ' ->
  timers_ok (server Σ').
Proof.
  intros (_ & (Hnd & _) & _ & Ht) Hen Hd.
  destruct ev as [i|bootstrap construct|id now|id parsed|id|id code reason|k now
                 |clientWs|clientWs parsed axios_get|clientWs|clientWs];
    simpl in Hen, Hd.
  - injection Hd as <-. now apply Forall_delete.
  - unfold on_bootstrap in Hd.
    destruct (connectToKuCoin bootstrap construct (server Σ)) as [S'|] eqn:E;
      [|discriminate].
    cbn [mbind Completion_bind] in Hd. injection Hd as <-.
    destruct (connectToKuCoin_inv _ _ _ _ E) as [[-> _]|(url & _ & _ & ->)];
      [|exact Ht].
    apply Forall_app. split; [exact Ht|]. constructor; [now right|constructor].
  - unfold on_kucoin_open in Hd. simpl in Hd.
    destruct (kucoinWs (server Σ)); [|discriminate].
    unfold upstream_send in Hd. simpl in Hd.
    destruct (alter (set_state OPEN) id (upstream Σ) !! n) as [sock|];
      [destruct (readyState sock)|]; try discriminate;
      injection Hd as <-; exact Ht.
  - unfold lift in Hd.
    destruct (on_kucoin_message parsed (server Σ)) as [S'|] eqn:E; [|discriminate].
    cbn [mbind Completion_bind] in Hd. injection Hd as <-.
    apply (timers_ok_same (server Σ)); [|exact Ht].
    eapply proj1, on_kucoin_message_same; eassumption.
  - unfold on_kucoin_error in Hd. simpl in Hd.
    destruct (kucoinWs (server Σ)); [|discriminate]. injection Hd as <-. exact Ht.
  - injection Hd as <-. apply Forall_app. split; [exact Ht|].
    constructor; [now left|constructor].
  - destruct (on_interval_inv _ _ _ Hd) as [->|(id & sock & _ & _ & _ & ->)];
      exact Ht.
  - injection Hd as <-. exact Ht.
  - unfold lift in Hd.
    destruct (on_client_message clientWs parsed axios_get (server Σ)) as [S'|] eqn:E;
      [|discriminate].
    cbn [mbind Completion_bind] in Hd. injection Hd as <-.
    apply (timers_ok_same (server Σ)); [|exact Ht].
    eapply proj1, on_client_message_same; eassumption.
  - injection Hd as <-. exact Ht.
  - injection Hd as <-. exact Ht.
Qed.

Lemma invariant_boot : invariant boot.
Proof.
  repeat split; simpl; try easy.
  all: try (apply NoDup_nil; exact I).
  all: try (intros c Hc; now apply elem_of_nil in Hc).
  all: constructor.
Qed.

Lemma invariant_step Σ ev Σ' :
  invariant Σ -> enabled ev Σ = true -> dispatch ev Σ = Normal Σ' -> invariant Σ'.
Proof.
  intros Hi Hen Hd. split; [|split; [|split]].
  - eapply single_upstream_step; eassumption.
  - eapply registry_ok_step; eassumption.
  - eapply protocol_ok_step; eassumption.
  - eapply timers_ok_step; eassumption.
Qed.

Lemma run_invariant evs : forall Σ Σ',
  invariant Σ -> run evs Σ = Some Σ' -> invariant Σ'.
Proof.
  induction evs as [|ev evs IH]; intros Σ Σ' Hi; simpl.
  - now intros [= <-].
  - destruct (enabled ev Σ) eqn:Hen; [|discriminate].
    destruct (dispatch ev Σ) as [Σ1|] eqn:Hd; [|discriminate].
    apply IH. eapply invariant_step; eassumption.
Qed.

Lemma run_events : run events boot = Some reached.
Proof. vm_compute. reflexivity. Defined.

(** ** The process as a whole *)

Section Reached.

(** A state the process reaches from its start by a sequence of events. *)
Variables (evs : list Event) (Σ : System).
Hypothesis reach : run evs boot = Some Σ.

(** The relay has one way to the exchange at any time: either the
    upstream socket that [kucoinWs] names, which has not closed, and then no
    retry is pending; or no socket that has not closed, and then exactly one
    retry, as a pending timer or a call waiting for the bootstrap request. *)
Theorem one_way_to_the_exchange : single_upstream Σ.
Proof using reach. exact (proj1 (run_invariant evs boot Σ invariant_boot reach)). Qed.

(** The set of subscribers is, without repetition, the front-end sockets
    that have not closed, and none of them is connecting. *)
Theorem subscribers_are_the_live_sockets : registry_ok (server Σ).
Proof using reach.
  exact (proj1 (proj2 (run_invariant evs boot Σ invariant_boot reach))).
Qed.

(** On every upstream socket the relay has sent nothing before the socket
    opened, then the subscription, then pings only. *)
Theorem exchange_hears_subscription_then_pings : protocol_ok Σ.
Proof using reach.
  exact (proj1 (proj2 (proj2 (run_invariant evs boot Σ invariant_boot reach)))).
Qed.

(** At most one reconnection timer is pending, and its delay is 5000 or
    10000 ms. *)
Theorem one_retry_timer :
  (length (timers (server Σ)) <= 1)%nat /\ timers_ok (server Σ).
Proof using reach.
  destruct (run_invariant evs boot Σ invariant_boot reach) as ((_ & H) & _ & _ & Ht).
  split; [|exact Ht].
  destruct (kucoinWs (server Σ)).
  - destruct H as (_ & _ & -> & _). simpl. lia.
  - destruct H as (_ & H). lia.
Qed.

End Reached.

Lemma one_way_to_the_exchange_witness : single_upstream reached.
Proof. exact (one_way_to_the_exchange events reached run_events). Defined.

Lemma subscribers_are_the_live_sockets_witness : registry_ok (server reached).
Proof. exact (subscribers_are_the_live_sockets events reached run_events). Defined.

Lemma exchange_hears_subscription_then_pings_witness : protocol_ok reached.
Proof. exact (exchange_hears_subscription_then_pings events reached run_events). Defined.

Lemma one_retry_timer_witness :
  (length (timers (server reached)) <= 1)%nat /\ timers_ok (server reached).
Proof. exact (one_retry_timer events reached run_events). Defined.

(** ** Handlers that cannot fail *)

(** In a state the process reaches, the handlers of timers, of the
    upstream socket's ['open'], ['error'] and ['close'], of the keep-alive
    interval and of front-end connections and closes complete normally: in
    particular [kucoinWs] is never [null] when ['open'] or ['error'] reads
    it. *)
Theorem internal_events_do_not_throw evs Σ ev :
  run evs boot = Some Σ ->
  enabled ev Σ = true ->
  internal ev = true ->
  exists Σ', dispatch ev Σ = Normal Σ'.
Proof.
  intros Hrun Hen Hint.
  destruct (run_invariant evs boot Σ invariant_boot Hrun) as (Hsu & _).
  destruct ev as [i|bootstrap construct|id now|id parsed|id|id code reason|k now
                 |clientWs|clientWs parsed axios_get|clientWs|clientWs];
    try discriminate; simpl in Hen; simpl; eauto.
  - apply is_state_spec in Hen as (sock & Hs & Hc).
    destruct (live_is_kucoinWs Σ id sock Hsu Hs) as (Hk & _); [congruence|].
    unfold on_kucoin_open, upstream_send. simpl. rewrite Hk.
    rewrite lookup_alter_eq, Hs. simpl. eauto.
  - apply not_closed_spec in Hen as (sock & Hs & Hn).
    destruct (live_is_kucoinWs Σ id sock Hsu Hs Hn) as (Hk & _).
    unfold on_kucoin_error. simpl. rewrite Hk. eauto.
  - unfold on_interval, upstream_send.
    destruct (kucoinWs (server Σ)) as [id|]; [|eauto].
    destruct (upstream Σ !! id) as [sock|]; [|eauto].
    destruct (decide (readyState sock = OPEN)) as [->|]; eauto.
Qed.

Lemma internal_events_do_not_throw_witness :
  exists Σ', dispatch (UpstreamErrors 1) reached = Normal Σ'.
Proof.
  apply (internal_events_do_not_throw events reached (UpstreamErrors 1) run_events);
    reflexivity.
Defined.

(** ** Keep-alive intervals *)

Lemma dispatch_intervals ev Σ Σ' :
  dispatch ev Σ = Normal Σ' ->
  intervals Σ' = (intervals Σ + opens [ev])%nat.
Proof.
  destruct ev as [i|bootstrap construct|id now|id parsed|id|id code reason|k now
                 |clientWs|clientWs parsed axios_get|clientWs|clientWs]; simpl.
  - intros [= <-]. simpl. lia.
  - unfold on_bootstrap.
    destruct (connectToKuCoin _ _ _); [|discriminate]. intros [= <-]. simpl. lia.
  - unfold on_kucoin_open, upstream_send. simpl.
    destruct (kucoinWs (server Σ)) as [id'|]; [|discriminate].
    destruct (alter _ _ _ !! id') as [sock|]; [destruct (readyState sock)|];
      try discriminate; intros [= <-]; simpl; lia.
  - unfold lift. destruct (on_kucoin_message _ _); [|discriminate].
    intros [= <-]. simpl. lia.
  - unfold on_kucoin_error. simpl.
    destruct (kucoinWs (server Σ)); [|discriminate]. intros [= <-]. simpl. lia.
  - intros [= <-]. simpl. lia.
  - intros H. destruct (on_interval_inv _ _ _ H) as [->|(id & sock & _ & _ & _ & ->)];
      simpl; lia.
  - intros [= <-]. simpl. lia.
  - unfold lift. destruct (on_client_message _ _ _ _); [|discriminate].
    intros [= <-]. simpl. lia.
  - intros [= <-]. simpl. lia.
  - intros [= <-]. simpl. lia.
Qed.

Lemma opens_cons ev evs : opens (ev :: evs) = (opens [ev] + opens evs)%nat.
Proof. destruct ev; reflexivity. Qed.

Lemma run_intervals evs : forall Σ Σ',
  run evs Σ = Some Σ' -> intervals Σ' = (intervals Σ + opens evs)%nat.
Proof.
  induction evs as [|ev evs IH]; intros Σ Σ'; simpl run.
  - intros [= <-]. simpl. lia.
  - destruct (enabled ev Σ); [|discriminate].
    destruct (dispatch ev Σ) as [Σ1|] eqn:Hd; [|discriminate].
    intros Hrun. rewrite (opens_cons ev evs), (IH _ _ Hrun), (dispatch_intervals _ _ _ Hd). lia.
Qed.

(** No keep-alive interval is ever cleared: there are as many as upstream
    sockets have opened since the start, each of them can fire, and each one
    that fires while the socket [kucoinWs] names is open sends it a ping.
    After a reconnection one period carries one ping per socket opened so
    far. *)
Theorem keep_alive_intervals_accumulate evs Σ :
  run evs boot = Some Σ ->
  intervals Σ = opens evs /\
  forall k now, (k < opens evs)%nat ->
    enabled (IntervalFires k now) Σ = true /\
    forall id sock,
      kucoinWs (server Σ) = Some id -> upstream Σ !! id = Some sock ->
      readyState sock = OPEN ->
      dispatch (IntervalFires k now) Σ
      = Normal (set_upstream
                  <[id := mkSocket OPEN (sent sock ++ [JSON_stringify (ping now)])]> Σ).
Proof.
  intros Hrun. pose proof (run_intervals _ _ _ Hrun) as Hi. simpl in Hi.
  split; [exact Hi|]. intros k now Hk. split.
  - simpl. apply bool_decide_eq_true. lia.
  - intros id sock Hid Hs Ho. simpl. unfold on_interval, upstream_send.
    rewrite Hid, Hs, decide_True by assumption. now rewrite Ho.
Qed.

Lemma keep_alive_intervals_accumulate_witness :
  intervals reached = opens events /\
  forall k now, (k < opens events)%nat ->
    enabled (IntervalFires k now) reached = true /\
    forall id sock,
      kucoinWs (server reached) = Some id -> upstream reached !! id = Some sock ->
      readyState sock = OPEN ->
      dispatch (IntervalFires k now) reached
      = Normal (set_upstream
                  <[id := mkSocket OPEN (sent sock ++ [JSON_stringify (ping now)])]>
                  reached).
Proof. exact (keep_alive_intervals_accumulate events reached run_events). Defined.

(** ** Connecting *)

(** [connectToKuCoin] does one of two things and never both: it schedules
    one retry in 10000 ms and opens nothing, or it opens one socket, named
    by [kucoinWs], and schedules nothing.  It touches neither the
    subscribers nor their sockets, and the only exception that escapes it
    is the one [new WebSocket] throws. *)
Theorem connect_retries_or_opens bootstrap construct S :
  (forall S', connectToKuCoin bootstrap construct S = Normal S' ->
     clients S' = clients S /\ sockets S' = sockets S /\
     ((timers S' = timers S ++ [(10000, ConnectToKuCoin)] /\
       kucoinWs S' = kucoinWs S /\ kucoinWsUrl S' = kucoinWsUrl S /\
       opened S' = opened S) \/
      (timers S' = timers S /\ kucoinWs S' = Some (opened S) /\
       opened S' = Datatypes.S (opened S) /\
       exists url, endpoint_and_token bootstrap = Normal url /\
                   kucoinWsUrl S' = Some url))) /\
  (forall e, connectToKuCoin bootstrap construct S = Throw e -> construct = Throw e).
Proof.
  split.
  - intros S' E.
    destruct (connectToKuCoin_inv _ _ _ _ E) as [[-> _]|(url & Hurl & _ & ->)]; simpl.
    + repeat split. left. now repeat split.
    + repeat split. right. repeat split. eauto.
  - intros e. rewrite connectToKuCoin_cases.
    destruct (endpoint_and_token bootstrap); [|discriminate].
    destruct construct as [[]|e']; [discriminate|]. now intros [= <-].
Qed.

(** A bootstrap response that lists a first instance server is never
    retried for what it lacks: the socket is opened with the endpoint and
    the token that are there, [undefined] for a missing one. *)
Theorem listed_server_is_connected response body data server others S :
  get_prop response "data" = Normal body ->
  get_prop body "data" = Normal data ->
  get_prop data "instanceServers" = Normal (JsArray (server :: others)) ->
  server <> JsNull -> server <> JsUndefined ->
  ToString_throws (param server "endpoint") = false ->
  ToString_throws (param data "token") = false ->
  connectToKuCoin (Normal response) (Normal tt) S
  = Normal (mkServer (clients S) (sockets S) (Some (opened S))
              (Some (param server "endpoint", param data "token"))
              (timers S) (Datatypes.S (opened S))).
Proof.
  intros Hbody Hdata Hservers Hn Hu He Ht.
  rewrite connectToKuCoin_cases. unfold endpoint_and_token.
  cbn [mbind Completion_bind]. rewrite Hbody. cbn [mbind Completion_bind].
  rewrite Hdata. cbn [mbind Completion_bind].
  rewrite Hservers. cbn [mbind Completion_bind get_index nth].
  unfold param in *.
  destruct (get_prop server "endpoint") as [endpoint|] eqn:E1;
    [|destruct server; try discriminate; congruence].
  destruct (get_prop data "token") as [token|] eqn:E2;
    [|destruct data; discriminate].
  cbn [mbind Completion_bind]. unfold template. cbn [existsb].
  rewrite He, Ht. reflexivity.
Qed.

Lemma listed_server_is_connected_witness :
  connectToKuCoin (Normal bullet_without_token) (Normal tt) one_client
  = Normal (mkServer (clients one_client) (sockets one_client)
              (Some (opened one_client))
              (Some (JsString "wss://ws.example/endpoint", JsUndefined))
              (timers one_client) (Datatypes.S (opened one_client))).
Proof.
  apply (listed_server_is_connected bullet_without_token
           (JsObject [("data", JsObject [
              ("instanceServers", JsArray [JsObject [("endpoint", JsString "wss://ws.example/endpoint")]])])])
           (JsObject [
              ("instanceServers", JsArray [JsObject [("endpoint", JsString "wss://ws.example/endpoint")]])])
           (JsObject [("endpoint", JsString "wss://ws.example/endpoint")]) []);
    try reflexivity; discriminate.
Defined.

(** ** Normalising records *)

Lemma formatCandle_cases l :
  formatCandle (JsArray l) =
  if existsb ToString_throws (firstn 5 l) then Throw cannot_convert
  else Normal (mkCandle (parseInt_value (nth 0 l JsUndefined) / 1000)
                        (parseFloat_value (nth 1 l JsUndefined))
                        (parseFloat_value (nth 2 l JsUndefined))
                        (parseFloat_value (nth 3 l JsUndefined))
                        (parseFloat_value (nth 4 l JsUndefined))).
Proof.
  unfold formatCandle, parseInt, parseFloat.
  destruct l as [|a [|b [|c [|d [|e l]]]]];
    cbn [get_index nth firstn existsb mbind Completion_bind];
    repeat match goal with
           | |- context [ToString_throws ?v] => is_var v; destruct (ToString_throws v)
           end;
    reflexivity.
Qed.

(** A record that is an array fails to normalise exactly when one of its
    first five elements cannot be converted to a string; otherwise each
    field is read from its index, [undefined] past the end, and the live
    path makes the same candle of it. *)
Theorem formatCandle_array l :
  let outcome :=
    if existsb ToString_throws (firstn 5 l) then Throw cannot_convert
    else Normal (mkCandle (parseInt_value (nth 0 l JsUndefined) / 1000)
                          (parseFloat_value (nth 1 l JsUndefined))
                          (parseFloat_value (nth 2 l JsUndefined))
                          (parseFloat_value (nth 3 l JsUndefined))
                          (parseFloat_value (nth 4 l JsUndefined))) in
  formatCandle (JsArray l) = outcome /\
  realTimeCandle (JsObject [("candles", JsArray l)]) = outcome.
Proof. split; apply formatCandle_cases. Qed.

(** A record shorter than five elements is not an error: every field
    past its end is [NaN]. *)
Theorem missing_fields_are_NaN l c i :
  formatCandle (JsArray l) = Normal c ->
  (length l <= i)%nat -> (i < 5)%nat ->
  field i c = nan.
Proof.
  rewrite formatCandle_cases. destruct (existsb _ _); [discriminate|].
  intros [= <-] Hlen Hi.
  destruct i as [|[|[|[|[|i]]]]]; try lia; simpl;
    rewrite nth_overflow by lia; reflexivity.
Qed.

Lemma missing_fields_are_NaN_witness :
  field 3 (mkCandle 1700000000 10.5 nan nan nan) = nan.
Proof.
  apply (missing_fields_are_NaN [JsString "1700000000000"; JsString "10.5"]);
    [vm_compute; reflexivity|simpl; lia|lia].
Defined.

Lemma mapC_lookup {A B} (f : A -> Completion B) l : forall bs,
  mapC f l = Normal bs ->
  length bs = length l /\
  forall i a, l !! i = Some a -> exists b, f a = Normal b /\ bs !! i = Some b.
Proof.
  induction l as [|x l IH]; simpl; intros bs.
  - intros [= <-]. split; [reflexivity|]. intros i a H. discriminate.
  - unfold mbind, Completion_bind. destruct (f x) as [b|] eqn:Hb; [|discriminate].
    destruct (mapC f l) as [bs'|]; [|discriminate]. intros [= <-].
    destruct (IH bs' eq_refl) as [Hlen Hnth]. split; [simpl; congruence|].
    intros [|i] a; simpl.
    + intros [= <-]. eauto.
    + apply Hnth.
Qed.

Lemma mapC_throw {A B} (f : A -> Completion B) l a e :
  a ∈ l -> f a = Throw e -> exists e', mapC f l = Throw e'.
Proof.
  intros Hin Ha. induction l as [|x l IH]; [now apply elem_of_nil in Hin|].
  simpl. unfold mbind, Completion_bind.
  destruct (f x) as [b|] eqn:Hb; [|eauto].
  apply elem_of_cons in Hin as [->|Hin]; [congruence|].
  destruct (IH Hin) as [e' ->]. eauto.
Qed.

Lemma rev_lookup {A} (l : list A) i :
  (i < length l)%nat -> rev l !! i = l !! (length l - S i)%nat.
Proof. rewrite rev_alt. apply reverse_lookup. Qed.

(** The batch has one candle per record of the response, in the opposite
    order, each the normalisation of its record. *)
Theorem history_batch_pointwise records batch i r :
  finalCandles records = Normal batch ->
  records !! i = Some r ->
  length batch = length records /\
  exists c, formatCandle r = Normal c /\
            batch !! (length records - S i)%nat = Some c.
Proof.
  intros H Hr. destruct (finalCandles_inv _ _ H) as (formatted & Hm & ->).
  destruct (mapC_lookup _ _ _ Hm) as [Hlen Hnth].
  destruct (Hnth i r Hr) as (c & Hc & Hi). pose proof (lookup_lt_Some _ _ _ Hr).
  split; [now rewrite length_rev|]. exists c. split; [exact Hc|].
  rewrite rev_lookup by lia. rewrite <- Hi. f_equal. lia.
Qed.

Lemma history_batch_pointwise_witness :
  length [mkCandle 1 8 9 9 7; mkCandle 2 10 12 13 9] = length newest_first /\
  exists c, formatCandle (record 2000 10 12 13 9) = Normal c /\
            [mkCandle 1 8 9 9 7; mkCandle 2 10 12 13 9]
              !! (length newest_first - 1)%nat = Some c.
Proof.
  apply (history_batch_pointwise newest_first _ 0 (record 2000 10 12 13 9));
    [vm_compute; reflexivity|reflexivity].
Defined.

(** ** History requests, whatever the exchange answers *)

Lemma history_reply_cases msg axios_get :
  (exists e, history_reply msg axios_get = Throw e) \/
  (exists batch, history_reply msg axios_get = Normal (JSON_stringify (history_data batch))).
Proof.
  unfold history_reply, mbind, Completion_bind.
  repeat match goal with
         | |- context [match ?c with Normal _ => _ | Throw _ => _ end] =>
             destruct c; [|left; eauto]
         | |- context [match ?v with JsArray _ => _ | _ => _ end] =>
             destruct v as [| | | | |[|? ?]|]
         end;
    right; eauto.
Qed.

(** A history request from an open connection is answered with exactly
    one message on that connection, a [history_data] batch or the error
    message, whatever the exchange returns or throws; nothing else
    changes. *)
Theorem history_request_gets_one_reply clientWs sock msg axios_get S :
  is_history_request msg = true ->
  sockets S !! clientWs = Some sock ->
  readyState sock = OPEN ->
  exists S' reply,
    on_client_message clientWs (Normal msg) axios_get S = Normal S' /\
    replied clientWs sock reply S S' /\
    (reply = JSON_stringify history_error \/
     exists batch, reply = JSON_stringify (history_data batch)).
Proof.
  intros Hreq Hs Ho. rewrite history_request_reply by assumption.
  destruct (history_reply_cases msg axios_get) as [[e ->]|[batch ->]].
  - destruct (ws_send_replied clientWs sock (JSON_stringify history_error) S Hs Ho)
      as (S' & E & R).
    exists S', (JSON_stringify history_error). auto.
  - destruct (ws_send_replied clientWs sock (JSON_stringify (history_data batch)) S Hs Ho)
      as (S' & E & R).
    exists S', (JSON_stringify (history_data batch)). eauto.
Qed.

Lemma history_request_gets_one_reply_witness :
  exists S' reply,
    on_client_message 1 (Normal (history_request "SOLUSDTM" "1min"))
      (fun _ _ => Normal (kline_response (JsArray newest_first))) three_clients
    = Normal S' /\
    replied 1 (mkSocket OPEN []) reply three_clients S' /\
    (reply = JSON_stringify history_error \/
     exists batch, reply = JSON_stringify (history_data batch)).
Proof.
  apply (history_request_gets_one_reply 1 (mkSocket OPEN [])
           (history_request "SOLUSDTM" "1min")); reflexivity.
Defined.

(** One record that cannot be normalised fails the whole request: the
    requester is sent the error message and no part of the history. *)
Theorem bad_record_fails_the_history
  clientWs sock msg axios_get response body records bad e S :
  is_history_request msg = true ->
  axios_get (param msg "symbol") (param msg "interval") = Normal response ->
  get_prop response "data" = Normal body ->
  get_prop body "data" = Normal (JsArray records) ->
  bad ∈ records ->
  formatCandle bad = Throw e ->
  sockets S !! clientWs = Some sock ->
  readyState sock = OPEN ->
  exists S',
    on_client_message clientWs (Normal msg) axios_get S = Normal S' /\
    replied clientWs sock (JSON_stringify history_error) S S'.
Proof.
  intros Hreq Hget Hbody Hdata Hin Hbad Hs Ho.
  rewrite history_request_reply by assumption.
  assert (E : exists e', history_reply msg axios_get = Throw e').
  { unfold history_reply.
    destruct (template _); cbn [mbind Completion_bind]; [|eauto].
    rewrite Hget. cbn [mbind Completion_bind].
    rewrite Hbody. cbn [mbind Completion_bind].
    rewrite Hdata. cbn [mbind Completion_bind].
    destruct records as [|r records]; [now apply elem_of_nil in Hin|].
    unfold finalCandles.
    destruct (mapC_throw formatCandle (r :: records) bad e Hin Hbad) as [e' ->].
    cbn [mbind Completion_bind]. eauto. }
  destruct E as [e' ->]. now apply ws_send_replied.
Qed.

Lemma bad_record_fails_the_history_witness :
  exists S',
    on_client_message 7 (Normal (history_request "SOLUSDTM" "1min"))
      (fun _ _ => Normal (kline_response
                            (JsArray [record 2000 10 12 13 9; JsNull])))
      one_client = Normal S' /\
    replied 7 (mkSocket OPEN []) (JSON_stringify history_error) one_client S'.
Proof.
  apply (bad_record_fails_the_history 7 (mkSocket OPEN [])
           (history_request "SOLUSDTM" "1min") _
           (kline_response (JsArray [record 2000 10 12 13 9; JsNull]))
           (JsObject [("code", JsString "200000");
                      ("data", JsArray [record 2000 10 12 13 9; JsNull])])
           [record 2000 10 12 13 9; JsNull] JsNull
           (TypeError "Cannot read properties of null (reading '0')"));
    try reflexivity.
  apply elem_of_cons. right. apply elem_of_cons. now left.
Defined.

(** ** Messages from the exchange *)

(** A candle update whose [candles] value normalises is pushed to every
    open subscriber, and to no one else, as [{topic, data}] with the
    message's own topic and the candle the history path would make of the
    same record. *)
Theorem candle_update_is_pushed msg kucoinCandle r candle S :
  is_candle_update msg = Normal true ->
  get_prop msg "data" = Normal kucoinCandle ->
  get_prop kucoinCandle "candles" = Normal r ->
  formatCandle r = Normal candle ->
  NoDup (clients S) ->
  exists S',
    on_kucoin_message (Normal msg) S = Normal S' /\
    same_process S S' /\
    forall c, sockets S' !! c =
              if decide (c ∈ clients S)
              then received (JSON_stringify
                               (JsObject [("topic", param msg "topic");
                                          ("data", Candle_value candle)]))
                     <$> sockets S !! c
              else sockets S !! c.
Proof.
  intros Hup Hdata Hcandles Hfmt Hnd.
  destruct (broadcast_spec
              (JsObject [("topic", param msg "topic"); ("data", Candle_value candle)])
              S Hnd) as (S' & E & P & H).
  exists S'. split; [|split; assumption].
  unfold on_kucoin_message. cbn [mbind Completion_bind].
  rewrite Hup. cbn [mbind Completion_bind]. rewrite Hdata. cbn [mbind Completion_bind].
  assert (Hrt : realTimeCandle kucoinCandle = Normal candle).
  { unfold realTimeCandle. rewrite Hcandles. exact Hfmt. }
  rewrite Hrt. cbn [mbind Completion_bind].
  unfold param in E. destruct (get_prop msg "topic") eqn:Ht; [exact E|].
  destruct msg; discriminate.
Qed.

Lemma candle_update_is_pushed_witness :
  exists S',
    on_kucoin_message (Normal candle_update) three_clients = Normal S' /\
    same_process three_clients S' /\
    forall c, sockets S' !! c =
              if decide (c ∈ clients three_clients)
              then received (JSON_stringify
                               (JsObject [("topic", param candle_update "topic");
                                          ("data", Candle_value
                                                     (mkCandle 1700000040 10.5 10.75 11 10.25))]))
                     <$> sockets three_clients !! c
              else sockets three_clients !! c.
Proof.
  apply (candle_update_is_pushed candle_update
           (JsObject [("symbol", JsString "SOLUSDTM");
                      ("candles", JsArray [JsString "1700000040000";
                                           JsString "10.5"; JsString "10.75";
                                           JsString "11"; JsString "10.25"])])
           (JsArray [JsString "1700000040000"; JsString "10.5"; JsString "10.75";
                     JsString "11"; JsString "10.25"]));
    try (vm_compute; reflexivity).
  exact three_clients_NoDup.
Defined.

(** A message that passes the test of the ['message'] handler but has no
    [data] (it is absent or [null]) is not skipped: reading its candles
    throws, and nothing in the handler catches it. *)
Theorem update_without_data_throws msg S :
  is_candle_update msg = Normal true ->
  param msg "data" = JsUndefined \/ param msg "data" = JsNull ->
  exists text, on_kucoin_message (Normal msg) S = Throw (TypeError text).
Proof.
  intros Hup Hdata. unfold on_kucoin_message. cbn [mbind Completion_bind].
  rewrite Hup. cbn [mbind Completion_bind]. unfold param in Hdata.
  destruct (get_prop msg "data") as [kucoinCandle|] eqn:E.
  - cbn [mbind Completion_bind]. unfold realTimeCandle.
    destruct Hdata as [Hd | Hd]; rewrite Hd;
      cbn [get_prop mbind Completion_bind]; eauto.
  - destruct msg; try discriminate; cbn [mbind Completion_bind]; eauto.
Qed.

Lemma update_without_data_throws_witness :
  exists text,
    on_kucoin_message
      (Normal (JsObject [("type", JsString "message");
                         ("subject", JsString "candle.stick")])) one_client
    = Throw (TypeError text).
Proof.
  apply (update_without_data_throws
           (JsObject [("type", JsString "message");
                      ("subject", JsString "candle.stick")]));
    [reflexivity|left; reflexivity].
Defined.

(** A message whose [type] is not the string ['message'] (a welcome, an
    acknowledgement, a pong) changes nothing and reaches no subscriber. *)
Theorem other_upstream_message_is_ignored msg S :
  msg <> JsNull -> msg <> JsUndefined ->
  strict_eq_string (param msg "type") "message" = false ->
  on_kucoin_message (Normal msg) S = Normal S.
Proof.
  intros Hn Hu. unfold param, on_kucoin_message, is_candle_update.
  cbn [mbind Completion_bind].
  destruct (get_prop msg "type") as [type|] eqn:E;
    [|destruct msg; try discriminate; congruence].
  cbn [mbind Completion_bind]. now intros ->.
Qed.

Lemma other_upstream_message_is_ignored_witness :
  on_kucoin_message
    (Normal (JsObject [("id", JsString "1700000025000"); ("type", JsString "pong")]))
    three_clients
  = Normal three_clients.
Proof.
  apply (other_upstream_message_is_ignored
           (JsObject [("id", JsString "1700000025000"); ("type", JsString "pong")]));
    [discriminate|discriminate|reflexivity].
Defined.

(** ** The front end *)

Lemma history_data_json batch :
  JSON_stringify (history_data batch)
  = JsObject [("topic", JsString "history_data");
              ("data", JsArray (map candle_json batch))].
Proof.
  unfold history_data. cbn [JSON_stringify]. rewrite map_map.
  do 5 f_equal.
Qed.

Lemma truthy_number x :
  truthy (JSON_stringify (JsNumber x)) = drawable x.
Proof.
  unfold drawable, is_finite. cbn [JSON_stringify]. unfold is_finite, parseFloat_Number.
  destruct (PrimFloat.is_nan x) eqn:Hn, (PrimFloat.is_infinity x) eqn:Hi; try reflexivity.
  destruct (PrimFloat.eqb x 0) eqn:Hz; simpl; [reflexivity|].
  now rewrite Hn, Hz.
Qed.

Lemma onmessage_history batch :
  onmessage (Normal (JSON_stringify (history_data batch))) true
  = match batch with
    | [] => None
    | _ :: _ => Some (setData (map candle_json batch))
    end.
Proof. rewrite history_data_json. destruct batch; reflexivity. Qed.

Lemma onmessage_error series :
  onmessage (Normal (JSON_stringify history_error)) series = None.
Proof. destruct series; reflexivity. Qed.

(** The front end loads a history reply into the chart exactly when it
    holds at least one candle, and then with the candles as they were sent,
    in the order they were sent; without a series it does nothing. *)
Theorem client_loads_history batch :
  onmessage (Normal (JSON_stringify (history_data batch))) true
  = match batch with
    | [] => None
    | _ :: _ => Some (setData (map candle_json batch))
    end /\
  onmessage (Normal (JSON_stringify (history_data batch))) false = None.
Proof. split; [apply onmessage_history|reflexivity]. Qed.

Lemma get_topic topic data :
  get_prop (JsObject [("topic", topic); ("data", data)]) "topic" = Normal topic.
Proof. reflexivity. Qed.

Lemma get_data topic data :
  get_prop (JsObject [("topic", topic); ("data", data)]) "data" = Normal data.
Proof. reflexivity. Qed.

Lemma push_json topic candle :
  JSON_stringify (JsObject [("topic", JsString topic); ("data", Candle_value candle)])
  = JsObject [("topic", JsString topic); ("data", candle_json candle)].
Proof. reflexivity. Qed.

Lemma candle_json_fields c :
  truthy (candle_json c) = true /\
  get_prop (candle_json c) "time" = Normal (JSON_stringify (JsNumber (time c))) /\
  get_prop (candle_json c) "close" = Normal (JSON_stringify (JsNumber (close c))).
Proof. repeat split. Qed.

(** The front end draws a pushed candle exactly when the topic contains
    [limitCandle] and both [time] and [close] are finite and not zero: a
    push whose [close] is [null] (the live update lacked it) or [0] is
    dropped. *)
Theorem client_draws_update topic candle :
  onmessage (Normal (JSON_stringify
                       (JsObject [("topic", JsString topic);
                                  ("data", Candle_value candle)]))) true
  = if String_includes topic "limitCandle"
       && drawable (time candle) && drawable (close candle)
    then Some (update (candle_json candle))
    else None.
Proof.
  rewrite push_json. unfold onmessage.
  cbn [mbind Completion_bind negb]. rewrite !get_topic, get_data.
  cbn [mbind Completion_bind strict_eq_string truthy call_includes].
  destruct (candle_json_fields candle) as (Hd & Ht & Hc).
  rewrite Hd, Ht, Hc. cbn [mbind Completion_bind negb]. rewrite !truthy_number.
  destruct (String.eqb_spec topic "history_data") as [->|Hne]; [reflexivity|].
  destruct (String.eqb_spec topic "") as [->|Hne']; [reflexivity|].
  cbn [negb mbind Completion_bind].
  destruct (String_includes topic "limitCandle"),
           (drawable (time candle)), (drawable (close candle)); reflexivity.
Qed.

(** ** From the front end to the exchange and back *)

Section RoundTrip.

Variables (clientWs : nat) (sock : ClientSocket) (S : Server).
Hypothesis requester : sockets S !! clientWs = Some sock.
Hypothesis requester_open : readyState sock = OPEN.

(** The request the component sends for its symbol and interval makes the
    server call the exchange with that symbol and interval; when the call
    returns records that normalise, the reply makes the component load
    into the chart the normalised candles, reversed, as JSON. *)
Theorem history_reaches_the_chart
  symbol interval axios_get response body r records batch :
  axios_get (JsString symbol) (JsString interval) = Normal response ->
  get_prop response "data" = Normal body ->
  get_prop body "data" = Normal (JsArray (r :: records)) ->
  finalCandles (r :: records) = Normal batch ->
  exists S' reply,
    on_client_message clientWs
      (Normal (historyRequest (JsString symbol) (JsString interval))) axios_get S
    = Normal S' /\
    replied clientWs sock reply S S' /\
    onmessage (Normal reply) true = Some (setData (map candle_json batch)).
Proof using requester requester_open.
  intros Hget Hbody Hdata Hfinal.
  rewrite history_request_reply by reflexivity.
  unfold history_reply.
  change (param (historyRequest (JsString symbol) (JsString interval)) "symbol")
    with (JsString symbol).
  change (param (historyRequest (JsString symbol) (JsString interval)) "interval")
    with (JsString interval).
  change (template [JsString symbol; JsString interval]) with (Normal tt).
  cbn [mbind Completion_bind]. rewrite Hget. cbn [mbind Completion_bind].
  rewrite Hbody. cbn [mbind Completion_bind].
  rewrite Hdata. cbn [mbind Completion_bind].
  rewrite Hfinal. cbn [mbind Completion_bind].
  destruct (ws_send_replied clientWs sock (JSON_stringify (history_data batch)) S
              requester requester_open) as (S' & E & R).
  exists S', (JSON_stringify (history_data batch)). repeat split; try apply R; [exact E|].
  rewrite onmessage_history.
  destruct (finalCandles_inv _ _ Hfinal) as (formatted & Hm & ->).
  destruct (mapC_lookup _ _ _ Hm) as [Hlen _].
  destruct formatted as [|c formatted]; [discriminate|].
  destruct (rev (c :: formatted)) eqn:Hrev; [|reflexivity].
  apply (f_equal length) in Hrev. rewrite length_rev in Hrev. discriminate.
Qed.

(** When the call to the exchange fails, the reply leaves the chart as it
    is: the component makes no call on the series. *)
Theorem failed_history_draws_nothing msg axios_get e :
  is_history_request msg = true ->
  axios_get (param msg "symbol") (param msg "interval") = Throw e ->
  exists S' reply,
    on_client_message clientWs (Normal msg) axios_get S = Normal S' /\
    replied clientWs sock reply S S' /\
    forall series, onmessage (Normal reply) series = None.
Proof using requester requester_open.
  intros Hreq Hget.
  rewrite history_request_reply by assumption.
  assert (E : exists e', history_reply msg axios_get = Throw e').
  { unfold history_reply.
    destruct (template _); cbn [mbind Completion_bind]; [|eauto].
    rewrite Hget. eauto. }
  destruct E as [e' ->].
  destruct (ws_send_replied clientWs sock (JSON_stringify history_error) S
              requester requester_open) as (S' & E & R).
  exists S', (JSON_stringify history_error). repeat split; try apply R; [exact E|].
  apply onmessage_error.
Qed.

End RoundTrip.

Lemma history_reaches_the_chart_witness :
  exists S' reply,
    on_client_message 7
      (Normal (historyRequest (JsString "SOLUSDTM") (JsString "1min")))
      (fun _ _ => Normal (kline_response (JsArray newest_first))) one_client
    = Normal S' /\
    replied 7 (mkSocket OPEN []) reply one_client S' /\
    onmessage (Normal reply) true
    = Some (setData (map candle_json [mkCandle 1 8 9 9 7; mkCandle 2 10 12 13 9])).
Proof.
  apply (history_reaches_the_chart 7 (mkSocket OPEN []) one_client eq_refl eq_refl
           "SOLUSDTM" "1min" _ (kline_response (JsArray newest_first))
           (JsObject [("code", JsString "200000"); ("data", JsArray newest_first)])
           (record 2000 10 12 13 9) [record 1000 8 9 9 7]);
    reflexivity.
Defined.

Lemma failed_history_draws_nothing_witness :
  exists S' reply,
    on_client_message 7 (Normal (history_request "SOLUSDTM" "1min"))
      (fun _ _ => Throw (Error "timeout of 1000ms exceeded")) one_client
    = Normal S' /\
    replied 7 (mkSocket OPEN []) reply one_client S' /\
    forall series, onmessage (Normal reply) series = None.
Proof.
  apply (failed_history_draws_nothing 7 (mkSocket OPEN []) one_client eq_refl eq_refl
           (history_request "SOLUSDTM" "1min")
           (fun _ _ => Throw (Error "timeout of 1000ms exceeded"))
           (Error "timeout of 1000ms exceeded"));
    reflexivity.
Defined.

(** ** Handlers in the states the process reaches *)

(** In a state the process reaches, a candle update that normalises is
    added to what every front-end socket that is open was sent, and every
    other socket is left as it was: no open front end is missed. *)
Theorem push_reaches_every_open_front_end evs Σ msg kucoinCandle r candle :
  run evs boot = Some Σ ->
  is_candle_update msg = Normal true ->
  get_prop msg "data" = Normal kucoinCandle ->
  get_prop kucoinCandle "candles" = Normal r ->
  formatCandle r = Normal candle ->
  exists S',
    on_kucoin_message (Normal msg) (server Σ) = Normal S' /\
    forall c, sockets S' !! c =
              received (JSON_stringify
                          (JsObject [("topic", param msg "topic");
                                     ("data", Candle_value candle)]))
                <$> sockets (server Σ) !! c.
Proof.
  intros Hrun Hup Hdata Hcandles Hfmt.
  destruct (run_invariant evs boot Σ invariant_boot Hrun)
    as (_ & (Hnd & _ & Hall & _) & _).
  destruct (broadcast_spec
              (JsObject [("topic", param msg "topic"); ("data", Candle_value candle)])
              (server Σ) Hnd) as (S' & E & _ & H).
  exists S'. split.
  - unfold on_kucoin_message. cbn [mbind Completion_bind].
    rewrite Hup. cbn [mbind Completion_bind]. rewrite Hdata. cbn [mbind Completion_bind].
    assert (Hrt : realTimeCandle kucoinCandle = Normal candle).
    { unfold realTimeCandle. rewrite Hcandles. exact Hfmt. }
    rewrite Hrt. cbn [mbind Completion_bind].
    unfold param in E. destruct (get_prop msg "topic") eqn:Ht; [exact E|].
    destruct msg; discriminate.
  - intros c. rewrite H. destruct (decide (c ∈ clients (server Σ))) as [|Hout];
      [reflexivity|].
    destruct (sockets (server Σ) !! c) as [sock|] eqn:Hs; [|reflexivity].
    simpl. f_equal. unfold received.
    destruct (decide (readyState sock = OPEN)) as [Ho|]; [|reflexivity].
    exfalso. apply Hout, (Hall c sock Hs). congruence.
Qed.

Lemma push_reaches_every_open_front_end_witness :
  exists S',
    on_kucoin_message (Normal candle_update) (server reached) = Normal S' /\
    forall c, sockets S' !! c =
              received (JSON_stringify
                          (JsObject [("topic", param candle_update "topic");
                                     ("data", Candle_value
                                                (mkCandle 1700000040 10.5 10.75 11 10.25))]))
                <$> sockets (server reached) !! c.
Proof.
  apply (push_reaches_every_open_front_end events reached candle_update
           (JsObject [("symbol", JsString "SOLUSDTM");
                      ("candles", JsArray [JsString "1700000040000";
                                           JsString "10.5"; JsString "10.75";
                                           JsString "11"; JsString "10.25"])])
           (JsArray [JsString "1700000040000"; JsString "10.5"; JsString "10.75";
                     JsString "11"; JsString "10.25"]));
    try (vm_compute; reflexivity).
Defined.

Lemma ws_send_total ws message S :
  (forall sock, sockets S !! ws = Some sock -> readyState sock <> CONNECTING) ->
  exists S', ws_send ws message S = Normal S'.
Proof.
  intros H. unfold ws_send. destruct (sockets S !! ws) as [sock|]; [|eauto].
  specialize (H sock eq_refl). destruct (readyState sock); eauto. congruence.
Qed.

(** In a state the process reaches, a history request never makes the
    handler throw, whatever the exchange answers and whatever has become of
    the connection that asked. *)
Theorem history_request_never_throws evs Σ clientWs msg axios_get :
  run evs boot = Some Σ ->
  is_history_request msg = true ->
  exists Σ', dispatch (ClientMessage clientWs (Normal msg) axios_get) Σ = Normal Σ'.
Proof.
  intros Hrun Hreq.
  destruct (run_invariant evs boot Σ invariant_boot Hrun)
    as (_ & (_ & _ & _ & Hconn) & _).
  cbn [dispatch]. unfold lift. rewrite history_request_reply by assumption.
  destruct (history_reply msg axios_get) as [reply|];
    [destruct (ws_send_total clientWs reply (server Σ)) as [S' ->]
    |destruct (ws_send_total clientWs (JSON_stringify history_error) (server Σ))
       as [S' ->]];
    try (intros sock; apply Hconn); cbn [mbind Completion_bind]; eauto.
Qed.

Lemma history_request_never_throws_witness :
  exists Σ',
    dispatch (ClientMessage 7 (Normal (history_request "SOLUSDTM" "1min"))
                (fun _ _ => Throw (Error "socket hang up"))) reached
    = Normal Σ'.
Proof.
  apply (history_request_never_throws events reached 7
           (history_request "SOLUSDTM" "1min")); [exact run_events|reflexivity].
Defined.

End Extras.
